(** * AuDiX user server: presence, signaling and identity store

    A shallow embedding of [src/server.js] (presence channel, station
    registry, signaling channel, public and internal views) and of
    [src/user_db_pg.js] (access requests, setup codes, login), with the
    properties the specification states about them.

    Conventions of the embedding.
    - A WebSocket object is a handle ([ws], a natural number): the two
      [Map]s keyed by socket objects and the listener [Set]s compare
      sockets by identity, which is equality of handles here.
    - The record a message handler closes over ([client], [sc]) is the
      very object stored in [live.clients] / [signalClients]; no event is
      delivered on a socket after its [close] event, so the handlers read
      and write that record through the map.
    - [Date.now()], the peer address, the random connection id and the
      [readyState] of the sockets are inputs of each step.
    - Strings are sequences of ASCII code units (flat ids, PINs and setup
      codes are such); [trim] and [toUpperCase] are given on that range.
    - Message fields are JSON scalars ([jsval]); the library algorithms
      that the code calls but does not contain (number formatting and
      parsing, collation, bcrypt) are the fields of the class [Platform]. *)

From Stdlib Require Import Floats ZArith Ascii String Sorting.Sorted Permutation.
From Stdlib Require OrderedTypeEx.
From stdpp Require Import gmap strings list fin_maps fin_sets.

Local Open Scope string_scope.
Local Open Scope Z_scope.

#[local] Set Warnings "-clear-no-such-hyp".

(** ** JavaScript values and coercions *)

Inductive jsval : Type :=
| JUndefined
| JNull
| JBool (b : bool)
| JNum (x : float)
| JStr (s : string).

(** The library algorithms the server relies on. *)
Class Platform : Type := {
  (** [Number::toString], used by [String(x)] on a number. *)
  NumberToString : float → string;
  (** [StringToNumber], used by [Number(x)] on a string. *)
  StringToNumber : string → float;
  (** [a.localeCompare(b)]: negative, zero or positive. *)
  localeCompare : string → string → Z;
  (** [bcrypt.hash(data, rounds)]. *)
  bcrypt_hash : string → nat → string;
  (** [bcrypt.compare(data, hash)]. *)
  bcrypt_compare : string → string → bool
}.

(** ToBoolean: what [!x], [x || y] and [if (x)] test. *)
Definition truthy (v : jsval) : bool :=
  match v with
  | JUndefined | JNull => false
  | JBool b => b
  | JNum x => negb (PrimFloat.eqb x 0 || PrimFloat.is_nan x)
  | JStr s => negb (String.eqb s "")
  end.

(** [x || y]. *)
Definition js_or (x y : jsval) : jsval := if truthy x then x else y.

(** [String(x)]. *)
Definition js_String `{Platform} (v : jsval) : string :=
  match v with
  | JUndefined => "undefined"
  | JNull => "null"
  | JBool true => "true"
  | JBool false => "false"
  | JNum x => NumberToString x
  | JStr s => s
  end.

(** [Number(x)]. *)
Definition js_Number `{Platform} (v : jsval) : float :=
  match v with
  | JUndefined => PrimFloat.nan
  | JNull => 0%float
  | JBool true => 1%float
  | JBool false => 0%float
  | JNum x => x
  | JStr s => StringToNumber s
  end.

(** A nullable string held in a record field or a table column: [null]
    and the empty string are the falsy ones. *)
Definition truthy_str (o : option string) : bool :=
  match o with
  | Some s => negb (String.eqb s "")
  | None => false
  end.

(** ** Strings: [trim] and [toUpperCase] *)

Definition is_ws (a : ascii) : bool :=
  let n := nat_of_ascii a in
  ((9 <=? n)%nat && (n <=? 13)%nat) || (n =? 32)%nat.

Fixpoint trimStart (s : string) : string :=
  match s with
  | EmptyString => EmptyString
  | String a s' => if is_ws a then trimStart s' else s
  end.

Fixpoint trimEnd (s : string) : string :=
  match s with
  | EmptyString => EmptyString
  | String a s' =>
      match trimEnd s' with
      | EmptyString => if is_ws a then EmptyString else String a EmptyString
      | t => String a t
      end
  end.

Definition trim (s : string) : string := trimEnd (trimStart s).

Definition upper_ascii (a : ascii) : ascii :=
  let n := nat_of_ascii a in
  if ((97 <=? n)%nat && (n <=? 122)%nat) then ascii_of_nat (n - 32) else a.

Fixpoint toUpperCase (s : string) : string :=
  match s with
  | EmptyString => EmptyString
  | String a s' => String (upper_ascii a) (toUpperCase s')
  end.

(** A string that does not start with white space. *)
Definition starts_clean (s : string) : Prop :=
  match s with
  | EmptyString => True
  | String a _ => is_ws a = false
  end.

(** [normalizeFlatId(x)]: [String(x || "").trim().toUpperCase()]. *)
Definition normalizeFlatId `{Platform} (x : jsval) : string :=
  toUpperCase (trim (js_String (js_or x (JStr "")))).

(** ** Sockets and outgoing effects *)

(** A WebSocket object, by identity. *)
Definition ws : Type := nat.
Bind Scope nat_scope with ws.

(** A JSON object literal sent by the server: its keys in order. *)
Definition json_obj : Type := list (string * jsval).

(** What a handler does to a socket: [ws.send(JSON.stringify(obj))] and
    [ws.close(code, reason)]. *)
Inductive action : Type :=
| Send (to : ws) (obj : json_obj)
| Close (w : ws) (code : Z) (reason : string).

(** [safeSend(ws, obj)]: nothing unless the socket exists and is OPEN
    ([readyState] 1). [rs] gives each socket's [readyState]. *)
Definition safeSend (rs : ws → Z) (w : option ws) (obj : json_obj) : list action :=
  match w with
  | None => []
  | Some w => if negb (Z.eqb (rs w) 1) then [] else [Send w obj]
  end.

Definition broadcast_denied : json_obj :=
  [("type", JStr "broadcast:denied"); ("reason", JStr "ALREADY_BROADCASTING")].

(** ** The presence channel and the station registry *)

Module Presence.

Inductive Role : Type := idle | broadcaster | listener.

(** The [client] object of a presence connection. *)
Record client : Type := mkClient {
  flat_id : option string;
  ip : string;
  role : Role;
  listeningTo : option string;
  connectedAt : Z
}.

Record audio_state : Type := mkAudio {
  micOn : bool;
  sysOn : bool;
  ptt : bool;
  speaking : bool;
  micLevel : float
}.

(** A value of [live.stations]; [s_ip] is its [ip] field. *)
Record station : Type := mkStation {
  s_ip : string;
  startedAt : Z;
  listeners : gset ws;
  audio : audio_state
}.

(** The [live] object: [live.clients] and [live.stations]. *)
Record live : Type := mkLive {
  clients : gmap ws client;
  stations : gmap string station
}.

Definition empty_live : live := mkLive ∅ ∅.

(** A parsed presence frame, by its [type]; [other] is a frame of any
    other type, which no branch of the handler takes. *)
Inductive frame : Type :=
| identify (flat_id : jsval)
| broadcast_start
| broadcast_stop
| broadcast_status (micOn sysOn ptt speaking micLevel : jsval)
| listen_start (targetFlat : jsval)
| listen_stop
| other.

Definition set_flat_id (f : option string) (c : client) : client :=
  mkClient f (ip c) (role c) (listeningTo c) (connectedAt c).
Definition set_role (r : Role) (c : client) : client :=
  mkClient (flat_id c) (ip c) r (listeningTo c) (connectedAt c).
Definition set_listeningTo (t : option string) (c : client) : client :=
  mkClient (flat_id c) (ip c) (role c) t (connectedAt c).
Definition set_listeners (L : gset ws) (st : station) : station :=
  mkStation (s_ip st) (startedAt st) L (audio st).
Definition set_audio (a : audio_state) (st : station) : station :=
  mkStation (s_ip st) (startedAt st) (listeners st) a.

(** [live.stations.get(t)?.listeners.delete(ws)]. *)
Definition listeners_delete (w : ws) (t : string)
    (sts : gmap string station) : gmap string station :=
  alter (λ st, set_listeners (listeners st ∖ {[w]}) st) t sts.

(** [st.listeners.add(ws)] on the station stored under [t]. *)
Definition listeners_add (w : ws) (t : string)
    (sts : gmap string station) : gmap string station :=
  alter (λ st, set_listeners ({[w]} ∪ listeners st) st) t sts.

(** The listener set of the station under [t], empty when there is none. *)
Definition listeners_at (sts : gmap string station) (t : string) : gset ws :=
  from_option listeners ∅ (sts !! t).

(** [lc.role = "idle"; lc.listeningTo = null]. *)
Definition reset_client (c : client) : client :=
  set_listeningTo None (set_role idle c).

(** The loop [for (const sock of st.listeners)] of [broadcast:stop] and of
    the close handler: every listener that still has a client record is
    reset. *)
Definition reset_listeners (L : gset ws) (cs : gmap ws client) : gmap ws client :=
  set_fold (λ sock acc, alter reset_client sock acc) cs L.

Definition default_audio : audio_state := mkAudio false false false false 0%float.

Section Handlers.
Context `{Platform}.

(** The ["message"] handler of [wssPresence], on the socket [w] whose
    client record is [client]; [now] is [Date.now()]. *)
Definition on_message (rs : ws → Z) (now : Z) (w : ws) (client : client)
    (msg : frame) (s : live) : live * list action :=
  match msg with
  | identify v =>
      (mkLive (<[w := set_flat_id (Some (normalizeFlatId v)) client]> (clients s))
              (stations s), [])
  | broadcast_start =>
      if negb (truthy_str (flat_id client)) then (s, []) else
      let f := default "" (flat_id client) in
      match stations s !! f with
      | Some existing => (s, safeSend rs (Some w) broadcast_denied)
      | None =>
          let '(sts, client1) :=
            if truthy_str (listeningTo client)
            then (listeners_delete w (default "" (listeningTo client)) (stations s),
                  set_listeningTo None client)
            else (stations s, client) in
          let client2 := set_role broadcaster client1 in
          (mkLive (<[w := client2]> (clients s))
                  (<[f := mkStation (ip client2) now ∅ default_audio]> sts), [])
      end
  | broadcast_stop =>
      if negb (truthy_str (flat_id client)) then (s, []) else
      let f := default "" (flat_id client) in
      let cs :=
        match stations s !! f with
        | Some st => reset_listeners (listeners st) (clients s)
        | None => clients s
        end in
      (mkLive (alter (set_role idle) w cs) (delete f (stations s)), [])
  | broadcast_status mo so pt sp ml =>
      if negb (truthy_str (flat_id client)) then (s, []) else
      let f := default "" (flat_id client) in
      match stations s !! f with
      | None => (s, [])
      | Some st =>
          let a := mkAudio (truthy mo) (truthy so) (truthy pt) (truthy sp)
                           (js_Number (js_or ml (JNum 0))) in
          (mkLive (clients s) (<[f := set_audio a st]> (stations s)), [])
      end
  | listen_start v =>
      let target := normalizeFlatId v in
      match stations s !! target with
      | None => (s, [])
      | Some st =>
          match role client with
          | broadcaster => (s, [])
          | _ =>
              let sts :=
                if truthy_str (listeningTo client)
                   && negb (String.eqb (default "" (listeningTo client)) target)
                then listeners_delete w (default "" (listeningTo client)) (stations s)
                else stations s in
              (mkLive (<[w := set_listeningTo (Some target) (set_role listener client)]>
                         (clients s))
                      (listeners_add w target sts), [])
          end
      end
  | listen_stop =>
      let sts :=
        if truthy_str (listeningTo client)
        then listeners_delete w (default "" (listeningTo client)) (stations s)
        else stations s in
      (mkLive (<[w := set_listeningTo None (set_role idle client)]> (clients s)) sts, [])
  | other => (s, [])
  end.

End Handlers.

(** The ["connection"] handler: a fresh client record for the socket. *)
Definition on_connection (w : ws) (addr : string) (now : Z) (s : live) : live :=
  mkLive (<[w := mkClient None addr idle None now]> (clients s)) (stations s).

(** The ["close"] handler of a presence socket. *)
Definition on_close (w : ws) (s : live) : live :=
  match clients s !! w with
  | None => s
  | Some c =>
      let sts :=
        if truthy_str (listeningTo c)
        then listeners_delete w (default "" (listeningTo c)) (stations s)
        else stations s in
      let '(cs, sts') :=
        match role c with
        | broadcaster =>
            if truthy_str (flat_id c) then
              let f := default "" (flat_id c) in
              (match sts !! f with
               | Some st => reset_listeners (listeners st) (clients s)
               | None => clients s
               end, delete f sts)
            else (clients s, sts)
        | _ => (clients s, sts)
        end in
      mkLive (delete w cs) sts'
  end.

(** The states the server can be in: from the empty registry, through
    connections of new sockets, frames on connected sockets and closes. *)
Inductive reachable `{Platform} : live → Prop :=
| reach_boot : reachable empty_live
| reach_connection s w addr now :
    reachable s → clients s !! w = None →
    reachable (on_connection w addr now s)
| reach_message s rs now w c msg :
    reachable s → clients s !! w = Some c →
    reachable (on_message rs now w c msg s).1
| reach_close s w :
    reachable s → reachable (on_close w s).

(** The station a closing connection takes down: the one under its flat
    id, when it is a broadcaster with a non-empty flat id. *)
Definition closing_station (c : client) : option string :=
  match role c with
  | broadcaster => if truthy_str (flat_id c) then flat_id c else None
  | _ => None
  end.

(** What every reachable state satisfies: no station is keyed by the
    empty string; a client's [listeningTo] names an existing station that
    has the client in its listener set; every member of a listener set
    is a connected client listening to that station; a broadcaster
    listens to nothing. *)
Record inv (s : live) : Prop := mkInv {
  inv_key : stations s !! "" = None;
  inv_listening : ∀ w c t,
    clients s !! w = Some c → listeningTo c = Some t →
    ∃ st, stations s !! t = Some st ∧ w ∈ listeners st;
  inv_member : ∀ t st w,
    stations s !! t = Some st → w ∈ listeners st →
    ∃ c, clients s !! w = Some c ∧ listeningTo c = Some t;
  inv_broadcaster : ∀ w c,
    clients s !! w = Some c → role c = broadcaster → listeningTo c = None
}.

(** A client with role listener has a listening target. *)
Definition listeners_listen (s : live) : Prop :=
  ∀ w c, clients s !! w = Some c → role c = listener → is_Some (listeningTo c).

(** An event on the presence server, with the inputs of its handler. *)
Inductive event : Type :=
| connection (w : ws) (addr : string) (now : Z)
| message (rs : ws → Z) (now : Z) (w : ws) (msg : frame)
| close (w : ws).

(** One event: a connection event brings a socket that is not yet
    known, a message event arrives on a connected socket; any other such
    event does not occur and is skipped. *)
Definition step `{Platform} (s : live) (e : event) : live :=
  match e with
  | connection w addr now =>
      match clients s !! w with
      | None => on_connection w addr now s
      | Some _ => s
      end
  | message rs now w msg =>
      match clients s !! w with
      | Some c => (on_message rs now w c msg s).1
      | None => s
      end
  | close w => on_close w s
  end.

(** The state after a sequence of events, from the empty registry. *)
Definition run `{Platform} (evs : list event) : live :=
  fold_left step evs empty_live.

End Presence.

(** ** The signaling channel *)

(** A JavaScript [Map] whose iteration order matters: its entries in
    insertion order, one per key. *)
Section OrderedMap.
Context {K V : Type} `{EqDecision K}.

Fixpoint omap_get (k : K) (m : list (K * V)) : option V :=
  match m with
  | [] => None
  | (k', v) :: m' => if decide (k = k') then Some v else omap_get k m'
  end.

(** [m.set(k, v)]: an existing key keeps its place, a new one goes last. *)
Fixpoint omap_set (k : K) (v : V) (m : list (K * V)) : list (K * V) :=
  match m with
  | [] => [(k, v)]
  | (k', v') :: m' =>
      if decide (k = k') then (k, v) :: m' else (k', v') :: omap_set k v m'
  end.

Fixpoint omap_delete (k : K) (m : list (K * V)) : list (K * V) :=
  match m with
  | [] => []
  | (k', v') :: m' =>
      if decide (k = k') then m' else (k', v') :: omap_delete k m'
  end.

End OrderedMap.

Module Signal.

Inductive Role : Type := unknown | broadcaster | listener.

(** The [sc] object of a signaling connection. *)
Record sclient : Type := mkSc {
  id : string;
  flat_id : option string;
  ip : string;
  role : Role;
  listeningTo : option string
}.

(** [signalClients] and [stationBroadcasterWS]. *)
Record state : Type := mkState {
  signalClients : list (ws * sclient);
  stationBroadcasterWS : gmap string ws
}.

Definition empty_state : state := mkState [] ∅.

Inductive frame : Type :=
| identify (flat_id role : jsval)
| listen_join (targetFlat : jsval)
| listen_leave
| webrtc_offer (listenerId sdp : jsval)
| webrtc_answer (broadcasterFlat sdp : jsval)
| webrtc_ice (listenerId broadcasterFlat candidate : jsval)
| other.

(** The frames that only relay. *)
Definition is_relay (msg : frame) : bool :=
  match msg with
  | webrtc_offer _ _ | webrtc_answer _ _ | webrtc_ice _ _ _ | other => true
  | _ => false
  end.

Definition set_listeningTo (t : option string) (c : sclient) : sclient :=
  mkSc (id c) (flat_id c) (ip c) (role c) t.
Definition set_role (r : Role) (c : sclient) : sclient :=
  mkSc (id c) (flat_id c) (ip c) r (listeningTo c).
Definition set_flat_id (f : option string) (c : sclient) : sclient :=
  mkSc (id c) f (ip c) (role c) (listeningTo c).

(** [v === s] for a string [s]. *)
Definition is_string (v : jsval) (s : string) : bool :=
  match v with
  | JStr s' => String.eqb s' s
  | _ => false
  end.

(** [[...signalClients.entries()].find(([w, c]) => c.id === v)?.[0]]. *)
Definition find_by_id (v : jsval) (m : list (ws * sclient)) : option ws :=
  fst <$> List.find (λ e, is_string v (id e.2)) m.

Definition listen_error (e : string) : json_obj :=
  [("type", JStr "listen:error"); ("error", JStr e)].

Section Handlers.
Context `{Platform}.

(** The ["message"] handler of [wssSignal] on the socket [w] with record
    [sc]; [sts] is [live.stations]. *)
Definition on_message (rs : ws → Z) (sts : gmap string Presence.station)
    (w : ws) (sc : sclient) (msg : frame) (s : state) : state * list action :=
  match msg with
  | identify fid r =>
      let f := normalizeFlatId fid in
      let sc1 := set_role (if is_string r "broadcaster" then broadcaster else listener)
                          (set_flat_id (Some f) sc) in
      let cs := omap_set w sc1 (signalClients s) in
      match role sc1 with
      | broadcaster =>
          match stationBroadcasterWS s !! f with
          | None => (mkState cs (<[f := w]> (stationBroadcasterWS s)), [])
          | Some _ =>
              (mkState cs (stationBroadcasterWS s),
               (safeSend rs (Some w) broadcast_denied
                  ++ [Close w 1008 "already broadcasting"])%list)
          end
      | _ => (mkState cs (stationBroadcasterWS s), [])
      end
  | listen_join v =>
      let targetFlat := normalizeFlatId v in
      let sc1 := set_listeningTo (Some targetFlat) (set_role listener sc) in
      let s1 := mkState (omap_set w sc1 (signalClients s)) (stationBroadcasterWS s) in
      match sts !! targetFlat with
      | None => (s1, safeSend rs (Some w) (listen_error "STATION_OFFLINE"))
      | Some st =>
          match stationBroadcasterWS s !! targetFlat with
          | None =>
              (s1, safeSend rs (Some w) (listen_error "BROADCASTER_SIGNAL_NOT_READY"))
          | Some bws =>
              (s1,
               (safeSend rs (Some bws)
                  [("type", JStr "listener:join"); ("listenerId", JStr (id sc1))]
                ++ safeSend rs (Some w)
                  [("type", JStr "listen:ok"); ("targetFlat", JStr targetFlat)])%list)
          end
      end
  | listen_leave =>
      if negb (truthy_str (listeningTo sc)) then (s, []) else
      let target := default "" (listeningTo sc) in
      let s1 := mkState (omap_set w (set_listeningTo None sc) (signalClients s))
                        (stationBroadcasterWS s) in
      match stationBroadcasterWS s !! target with
      | Some bws =>
          (s1, safeSend rs (Some bws)
                 [("type", JStr "listener:leave"); ("listenerId", JStr (id sc))])
      | None => (s1, [])
      end
  | webrtc_offer lid sdp =>
      match find_by_id lid (signalClients s) with
      | None => (s, [])
      | Some listenerWs =>
          (s, safeSend rs (Some listenerWs)
                [("type", JStr "webrtc:offer"); ("from", JStr (id sc)); ("sdp", sdp)])
      end
  | webrtc_answer bf sdp =>
      match stationBroadcasterWS s !! normalizeFlatId bf with
      | None => (s, [])
      | Some bws =>
          (s, safeSend rs (Some bws)
                [("type", JStr "webrtc:answer"); ("listenerId", JStr (id sc));
                 ("sdp", sdp)])
      end
  | webrtc_ice lid bf cand =>
      match role sc with
      | broadcaster =>
          if truthy lid then
            match find_by_id lid (signalClients s) with
            | None => (s, [])
            | Some listenerWs =>
                (s, safeSend rs (Some listenerWs)
                      [("type", JStr "webrtc:ice"); ("from", JStr (id sc));
                       ("candidate", cand)])
            end
          else (s, [])
      | listener =>
          if truthy bf then
            match stationBroadcasterWS s !! normalizeFlatId bf with
            | None => (s, [])
            | Some bws =>
                (s, safeSend rs (Some bws)
                      [("type", JStr "webrtc:ice"); ("listenerId", JStr (id sc));
                       ("candidate", cand)])
            end
          else (s, [])
      | unknown => (s, [])
      end
  | other => (s, [])
  end.

End Handlers.

(** The ["connection"] handler: [newid] is the result of [makeId()]. *)
Definition on_connection (rs : ws → Z) (w : ws) (newid addr : string)
    (s : state) : state * list action :=
  (mkState (omap_set w (mkSc newid None addr unknown None) (signalClients s))
           (stationBroadcasterWS s),
   safeSend rs (Some w) [("type", JStr "hello"); ("id", JStr newid)]).

(** The ["close"] handler of a signaling socket. *)
Definition on_close (w : ws) (s : state) : state :=
  match omap_get w (signalClients s) with
  | None => s
  | Some c =>
      let idx :=
        match role c with
        | broadcaster =>
            if truthy_str (flat_id c) then
              let f := default "" (flat_id c) in
              if decide (stationBroadcasterWS s !! f = Some w)
              then delete f (stationBroadcasterWS s)
              else stationBroadcasterWS s
            else stationBroadcasterWS s
        | _ => stationBroadcasterWS s
        end in
      mkState (omap_delete w (signalClients s)) idx
  end.

End Signal.

(** ** [Array.prototype.sort] with a comparator *)

(** The sort is stable: an element goes before the first element that
    does not compare below it, so equal elements keep their order. *)
Section Sort.
Context {A : Type} (cmp : A → A → Z).

Fixpoint sort_insert (x : A) (l : list A) : list A :=
  match l with
  | [] => [x]
  | y :: l' => if Z.leb (cmp x y) 0 then x :: l else y :: sort_insert x l'
  end.

Fixpoint js_sort (l : list A) : list A :=
  match l with
  | [] => []
  | x :: l' => sort_insert x (js_sort l')
  end.

(** A comparator that orders: of two elements one is not after the
    other, and "not after" is transitive. *)
Definition consistent : Prop :=
  (∀ a b, 0 < cmp a b → cmp b a ≤ 0) ∧
  (∀ a b c, cmp a b ≤ 0 → cmp b c ≤ 0 → cmp a c ≤ 0).

End Sort.

(** ** The views of the station registry *)

Module Views.

(** An element of the public station list. *)
Record public_station : Type := mkPublic {
  id : string;
  name : string;
  live : bool;
  listeners : nat;
  startedAt : Z
}.

(** The object that [buildPublicStations] pushes for a registry entry. *)
Definition public_of (e : string * Presence.station) : public_station :=
  mkPublic e.1 e.1 true (size (Presence.listeners e.2)) (Presence.startedAt e.2).

(** [buildPublicStations()]; [entries] is [live.stations.entries()], the
    registry's entries in insertion order. *)
Definition buildPublicStations `{Platform}
    (entries : list (string * Presence.station)) : list public_station :=
  let out := map public_of entries in
  js_sort (λ a b, localeCompare (id a) (id b)) out.

End Views.

(** ** The identity store *)

Module UserDb.

(** A row of [flat_requests]. *)
Record flat_request : Type := mkRequest {
  fr_id : Z;
  fr_flat_id : string;
  fr_name : string;
  fr_note : string;
  fr_status : string;
  fr_created_at : Z;
  fr_updated_at : Z
}.

(** A row of [flats]; a nullable column is an [option]. *)
Record flat : Type := mkFlat {
  fl_flat_id : string;
  fl_status : string;
  fl_pin_hash : option string;
  fl_password_hash : option string;
  fl_strike_count : Z;
  fl_ban_until : option Z;
  fl_requires_admin_revoke : bool;
  fl_created_at : Z;
  fl_updated_at : Z;
  fl_last_login_at : option Z
}.

(** A row of [setup_codes]. *)
Record setup_code : Type := mkCode {
  sc_id : Z;
  sc_flat_id : string;
  sc_code_hash : string;
  sc_expires_at : Z;
  sc_used_at : option Z;
  sc_created_at : Z
}.

(** The three tables the functions touch; [flats] is keyed by its
    primary key, [flat_requests_seq] is the last value the BIGSERIAL
    sequence of [flat_requests.id] has given. *)
Record db : Type := mkDb {
  flat_requests : list flat_request;
  flat_requests_seq : Z;
  flats : gmap string flat;
  setup_codes : list setup_code
}.

(** [ORDER BY created_at DESC]: rows of equal [created_at] keep their
    stored order. *)
Definition order_by_desc {R : Type} (key : R → Z) (rows : list R) : list R :=
  js_sort (λ a b, key b - key a) rows.

(** [/^\d{4}$/.test(s)]. *)
Definition is_digit (a : ascii) : bool :=
  let n := nat_of_ascii a in (48 <=? n)%nat && (n <=? 57)%nat.

Definition four_digits (s : string) : bool :=
  match s with
  | String a (String b (String c (String d EmptyString))) =>
      is_digit a && is_digit b && is_digit c && is_digit d
  | _ => false
  end.

(** A nullable BIGINT column read by the driver: a decimal string or
    [null], so every non-null value is truthy. *)
Definition truthy_bigint (o : option Z) : bool :=
  match o with Some _ => true | None => false end.

Inductive access_result : Type :=
| AccessError (error : string)
| AccessOk (id : Z) (status : string) (reused : bool).

Inductive setup_result : Type :=
| SetupError (error : string)
| SetupOk.

Inductive login_result : Type :=
| LoginError (error : string)
| LoginBanned (ban_until : Z)
| LoginOk (flat_id : string).

(** The [request] and [flat] fields of [getSetupStatus]'s answer. *)
Record request_view : Type := mkRequestView {
  rv_status : string;
  rv_created_at : Z;
  rv_updated_at : Z
}.

Record flat_view : Type := mkFlatView {
  fv_status : string;
  pinSet : bool;
  banned : bool;
  requiresAdminRevoke : bool
}.

Inductive status_result : Type :=
| StatusError (error : string)
| StatusOk (flat_id : string) (request : option request_view) (flat : option flat_view).

Section Operations.
Context `{Platform}.

(** The PENDING requests of a flat, most recent first. *)
Definition pending_requests (f : string) (d : db) : list flat_request :=
  order_by_desc fr_created_at
    (filter (λ r, fr_flat_id r = f ∧ fr_status r = "PENDING") (flat_requests d)).

(** [createAccessRequest(query, {flat_id, name})] at time [now]. *)
Definition createAccessRequest (now : Z) (flat_id name : jsval) (d : db)
    : db * access_result :=
  let flat_id := normalizeFlatId flat_id in
  let name := trim (js_String (js_or name (JStr ""))) in
  if String.eqb flat_id "" || String.eqb name "" then (d, AccessError "MISSING_FIELDS")
  else
    match pending_requests flat_id d with
    | existing :: _ => (d, AccessOk (fr_id existing) (fr_status existing) true)
    | [] =>
        let id := flat_requests_seq d + 1 in
        (mkDb (flat_requests d ++ [mkRequest id flat_id name "" "PENDING" now now])
              id (flats d) (setup_codes d),
         AccessOk id "PENDING" false)
    end.

(** The five most recent setup codes of a flat. *)
Definition recent_codes (f : string) (d : db) : list setup_code :=
  take 5 (order_by_desc sc_created_at
            (filter (λ r, sc_flat_id r = f) (setup_codes d))).

(** [rowsRes.rows.find((r) => !r.used_at && Number(r.expires_at) > now)]. *)
Definition find_valid (now : Z) (rows : list setup_code) : option setup_code :=
  List.find (λ r, negb (truthy_bigint (sc_used_at r)) && Z.ltb now (sc_expires_at r)) rows.

(** The row update of [UPDATE setup_codes SET used_at=$1 WHERE id=$2]. *)
Definition mark_used (now id : Z) (r : setup_code) : setup_code :=
  if Z.eqb (sc_id r) id
  then mkCode (sc_id r) (sc_flat_id r) (sc_code_hash r) (sc_expires_at r) (Some now)
              (sc_created_at r)
  else r.

(** [setupPinWithCode(query, {flat_id, code, pin4, password})] at time
    [now], on the path where every query succeeds. *)
Definition setupPinWithCode (now : Z) (flat_id code pin4 password : jsval) (d : db)
    : db * setup_result :=
  let flat_id := normalizeFlatId flat_id in
  if String.eqb flat_id "" || negb (truthy code) || negb (truthy pin4)
  then (d, SetupError "MISSING_FIELDS")
  else if negb (four_digits (js_String pin4)) then (d, SetupError "PIN_MUST_BE_4_DIGITS")
  else
    match flats d !! flat_id with
    | None => (d, SetupError "FLAT_NOT_FOUND")
    | Some flat =>
        if negb (String.eqb (fl_status flat) "ACTIVE") then (d, SetupError "FLAT_DISABLED")
        else
          match find_valid now (recent_codes flat_id d) with
          | None => (d, SetupError "NO_VALID_CODE")
          | Some valid =>
              if negb (bcrypt_compare (trim (js_String code)) (sc_code_hash valid))
              then (d, SetupError "INVALID_CODE")
              else
                let pin_hash := bcrypt_hash (js_String pin4) 10 in
                let password_hash :=
                  if truthy password then Some (bcrypt_hash (js_String password) 10)
                  else None in
                (mkDb (flat_requests d) (flat_requests_seq d)
                   (alter (λ r, mkFlat (fl_flat_id r) (fl_status r) (Some pin_hash)
                                  password_hash (fl_strike_count r) (fl_ban_until r)
                                  (fl_requires_admin_revoke r) (fl_created_at r) now
                                  (fl_last_login_at r))
                          flat_id (flats d))
                   (map (mark_used now (sc_id valid)) (setup_codes d)),
                 SetupOk)
          end
    end.

(** [flat.ban_until && Number(flat.ban_until) > now]. *)
Definition is_banned (now : Z) (flat : flat) : bool :=
  truthy_bigint (fl_ban_until flat) && Z.ltb now (default 0 (fl_ban_until flat)).

(** [loginFlat(query, {flat_id, pin4, password})] at time [now]. *)
Definition loginFlat (now : Z) (flat_id pin4 password : jsval) (d : db)
    : db * login_result :=
  let flat_id := normalizeFlatId flat_id in
  match flats d !! flat_id with
  | None => (d, LoginError "FLAT_NOT_FOUND")
  | Some flat =>
      let logged_in :=
        (mkDb (flat_requests d) (flat_requests_seq d)
           (alter (λ r, mkFlat (fl_flat_id r) (fl_status r) (fl_pin_hash r)
                          (fl_password_hash r) (fl_strike_count r) (fl_ban_until r)
                          (fl_requires_admin_revoke r) (fl_created_at r) now (Some now))
                  flat_id (flats d))
           (setup_codes d),
         LoginOk flat_id) in
      if negb (String.eqb (fl_status flat) "ACTIVE") then (d, LoginError "FLAT_DISABLED")
      else if is_banned now flat then (d, LoginBanned (default 0 (fl_ban_until flat)))
      else if fl_requires_admin_revoke flat then (d, LoginError "ADMIN_REVOKE_REQUIRED")
      else if negb (truthy_str (fl_pin_hash flat)) then (d, LoginError "PIN_NOT_SET")
      else if negb (four_digits (js_String pin4)) then (d, LoginError "INVALID_PIN")
      else if negb (bcrypt_compare (js_String pin4) (default "" (fl_pin_hash flat)))
      then (d, LoginError "INVALID_CREDENTIALS")
      else if truthy_str (fl_password_hash flat) then
        if negb (truthy password) then (d, LoginError "PASSWORD_REQUIRED")
        else if negb (bcrypt_compare (js_String password)
                        (default "" (fl_password_hash flat)))
        then (d, LoginError "INVALID_CREDENTIALS")
        else logged_in
      else logged_in
  end.

(** [getSetupStatus(query, {flat_id})] at time [now]. *)
Definition getSetupStatus (now : Z) (flat_id : jsval) (d : db) : status_result :=
  let flat_id := normalizeFlatId flat_id in
  if String.eqb flat_id "" then StatusError "MISSING_FLAT_ID"
  else
    let req :=
      head (order_by_desc fr_created_at
              (filter (λ r, fr_flat_id r = flat_id) (flat_requests d))) in
    StatusOk flat_id
      ((λ r, mkRequestView (fr_status r) (fr_created_at r) (fr_updated_at r)) <$> req)
      ((λ fl, mkFlatView (fl_status fl) (truthy_str (fl_pin_hash fl))
                (is_banned now fl) (fl_requires_admin_revoke fl))
         <$> flats d !! flat_id).

End Operations.

End UserDb.

(** ** The heartbeat of a connection *)

Module Heartbeat.

(** [ws.isAlive], and whether the interval of the connection is still
    set. *)
Record state : Type := mkHb {
  isAlive : bool;
  ticking : bool
}.

(** What the interval callback does to the socket. *)
Inductive signal : Type := ping | terminate.

(** On connection: [ws.isAlive = true] and the interval is set. *)
Definition on_open : state := mkHb true true.

(** The ["pong"] handler. *)
Definition on_pong (s : state) : state := mkHb true (ticking s).

(** The interval callback, every 15000 ms: a socket that has not
    answered since the last tick is terminated and the interval cleared;
    otherwise the flag is lowered and a ping is sent. *)
Definition on_tick (s : state) : state * list signal :=
  if negb (ticking s) then (s, [])
  else if negb (isAlive s) then (mkHb (isAlive s) false, [terminate])
  else (mkHb false (ticking s), [ping]).

Inductive event : Type := pong | tick.

Definition step (acc : state * list signal) (e : event) : state * list signal :=
  match e with
  | pong => (on_pong (fst acc), snd acc)
  | tick => (fst (on_tick (fst acc)), (snd acc ++ snd (on_tick (fst acc)))%list)
  end.

Definition run (evs : list event) : state * list signal :=
  fold_left step evs (on_open, []).

(** No tick directly follows a tick: the peer answers every ping before
    the next tick. *)
Fixpoint responsive (evs : list event) : bool :=
  match evs with
  | [] => true
  | pong :: rest => responsive rest
  | tick :: rest =>
      match rest with
      | tick :: _ => false
      | _ => responsive rest
      end
  end.

End Heartbeat.

(** ** A platform for the worked examples *)

(** The examples use string ids, integer times and numeric levels, so
    none of them calls the number conversions. Collation is by code
    unit, which is how upper-case letters and digits collate; the hash
    keeps its input readable. *)
Definition example_platform : Platform := {|
  NumberToString := λ _, "NaN";
  StringToNumber := λ _, PrimFloat.nan;
  localeCompare := λ a b,
    match String.compare a b with Lt => -1 | Eq => 0 | Gt => 1 end;
  bcrypt_hash := λ data _, "$2b$10$" ++ data;
  bcrypt_compare := λ data hash, String.eqb hash ("$2b$10$" ++ data)
|}.

(** Every socket OPEN. *)
Definition all_open : ws → Z := λ _, 1.

(** ** The states of the worked examples *)

Module PresenceExamples.
Import Presence.
#[local] Existing Instance example_platform.

(** Flat A1 is on air from socket 1; socket 2 has identified as A1 too. *)
Definition duplicate_trace : list event :=
  [connection 1 "10.0.0.1" 1000;
   message all_open 1001 1 (identify (JStr "a1"));
   message all_open 1002 1 broadcast_start;
   connection 2 "10.0.0.2" 1003;
   message all_open 1004 2 (identify (JStr " A1 "))].

(** Station A1 (socket 1) with the listeners on sockets 2 and 3. *)
Definition station_with_listeners : list event :=
  [connection 1 "10.0.0.1" 1000;
   message all_open 1001 1 (identify (JStr "A1"));
   message all_open 1002 1 broadcast_start;
   connection 2 "10.0.0.2" 1003;
   message all_open 1004 2 (identify (JStr "B2"));
   message all_open 1005 2 (listen_start (JStr "a1"));
   connection 3 "10.0.0.3" 1006;
   message all_open 1007 3 (identify (JStr "C3"));
   message all_open 1008 3 (listen_start (JStr "A1"))].

(** Flat A1 is on air from socket 1. *)
Definition on_air : list event :=
  [connection 1 "10.0.0.1" 1000;
   message all_open 1001 1 (identify (JStr "A1"));
   message all_open 1002 1 broadcast_start].

(** Two stations, B2 started first. *)
Definition two_stations : gmap string station :=
  <["B2" := mkStation "10.0.0.2" 1000 {[5%nat; 6%nat]} default_audio]>
    (<["A1" := mkStation "10.0.0.1" 2000 ∅ default_audio]> ∅).

(** Socket 1 has identified as A1 and done nothing else. *)
Definition identified : list event :=
  [connection 1 "10.0.0.1" 1000;
   message all_open 1001 1 (identify (JStr "A1"))].

(** Flat A1 is on air from socket 1; socket 2 has just connected. *)
Definition on_air_with_guest : list event :=
  on_air ++ [connection 2 "10.0.0.2" 1003].

End PresenceExamples.

Module SignalExamples.
Import Signal.
#[local] Existing Instance example_platform.

(** Socket 1 is the registered broadcaster of A1; socket 2 has just
    connected. *)
Definition one_broadcaster : state :=
  (on_message all_open ∅ 1
     (mkSc "00000000000000a1" None "10.0.0.1" unknown None)
     (identify (JStr "a1") (JStr "broadcaster"))
     (on_connection all_open 2 "00000000000000b2" "10.0.0.2"
        (on_connection all_open 1 "00000000000000a1" "10.0.0.1" empty_state).1).1).1.

(** The registry with the single station A1. *)
Definition a1_on_air : gmap string Presence.station :=
  <["A1" := Presence.mkStation "10.0.0.1" 1002 ∅ Presence.default_audio]> ∅.

End SignalExamples.

Module UserDbExamples.
Import UserDb.

(** An empty store whose request sequence stands at 6. *)
Definition fresh_db : db := mkDb [] 6 ∅ [].

(** Flat A1 is ACTIVE and has one setup code, "1234", valid until 9000. *)
Definition one_code_db : db :=
  mkDb [] 0
    (<["A1" := mkFlat "A1" "ACTIVE" None None 0 None false 100 100 None]> ∅)
    [mkCode 1 "A1" "$2b$10$1234" 9000 None 200].

(** Flat A1 with PIN 5678 and a password. *)
Definition pin_and_password_db : db :=
  mkDb [] 0
    (<["A1" := mkFlat "A1" "ACTIVE" (Some "$2b$10$5678") (Some "$2b$10$secret")
                 0 None false 100 300 None]> ∅)
    [].

(** The store after flat A1 has redeemed its code with PIN 5678. *)
Definition after_setup `{Platform} : db :=
  (setupPinWithCode 2000 (JStr "a1") (JStr "1234") (JStr "5678") JUndefined
     one_code_db).1.

End UserDbExamples.

(** * Properties *)

(** ** Lookup lemmas for the registry operations *)

Module PresenceFacts.
Import Presence PresenceExamples.

Lemma truthy_str_Some (o : option string) :
  truthy_str o = true ↔ ∃ t, o = Some t ∧ t ≠ "".
Proof.
  destruct o as [t|]; simpl.
  - rewrite negb_true_iff, String.eqb_neq. naive_solver.
  - naive_solver.
Qed.

Lemma truthy_str_false (o : option string) :
  truthy_str o = false ↔ o = None ∨ o = Some "".
Proof.
  destruct o as [t|]; simpl.
  - rewrite negb_false_iff, String.eqb_eq. naive_solver.
  - naive_solver.
Qed.

Lemma lookup_listeners_delete w t sts t' :
  listeners_delete w t sts !! t' =
  (λ st, if decide (t = t') then set_listeners (listeners st ∖ {[w]}) st else st)
    <$> sts !! t'.
Proof.
  unfold listeners_delete. rewrite lookup_alter.
  destruct (decide (t = t')) as [->|]; destruct (sts !! t'); done.
Qed.

Lemma lookup_listeners_add w t sts t' :
  listeners_add w t sts !! t' =
  (λ st, if decide (t = t') then set_listeners ({[w]} ∪ listeners st) st else st)
    <$> sts !! t'.
Proof.
  unfold listeners_add. rewrite lookup_alter.
  destruct (decide (t = t')) as [->|]; destruct (sts !! t'); done.
Qed.

Lemma lookup_reset_listeners L cs w :
  reset_listeners L cs !! w =
  (λ c, if decide (w ∈ L) then reset_client c else c) <$> cs !! w.
Proof.
  unfold reset_listeners.
  refine (set_fold_ind_L
    (λ acc (X : gset ws),
       acc !! w = (λ c, if decide (w ∈ X) then reset_client c else c) <$> cs !! w)
    _ _ _ _ L).
  - destruct (cs !! w); simpl; [|done]. by rewrite decide_False by set_solver.
  - intros x X acc Hx IH. rewrite lookup_alter.
    destruct (decide (x = w)) as [->|Hxw].
    + rewrite IH. destruct (cs !! w); simpl; [|done].
      rewrite decide_False by done. by rewrite decide_True by set_solver.
    + rewrite IH. destruct (cs !! w); simpl; [|done].
      destruct (decide (w ∈ X)).
      * by rewrite decide_True by set_solver.
      * by rewrite decide_False by set_solver.
Qed.

(** ** The invariant of the presence plane *)


Lemma inv_listening_truthy s w c :
  inv s → clients s !! w = Some c →
  truthy_str (listeningTo c) = false → listeningTo c = None.
Proof.
  intros Hi Hc [Hn|He]%truthy_str_false; [done|].
  destruct (inv_listening s Hi w c "" Hc He) as (st & Hst & _).
  rewrite (inv_key s Hi) in Hst. done.
Qed.

Lemma inv_boot : inv empty_live.
Proof. split; simpl; intros *; rewrite ?lookup_empty; done. Qed.

Lemma inv_connection s w addr now :
  inv s → clients s !! w = None → inv (on_connection w addr now s).
Proof.
  intros [Hk Hl Hm Hb] Hw. split; simpl.
  - done.
  - intros w' c t. rewrite lookup_insert. case_decide; [naive_solver|eauto].
  - intros t st w' Hst Hin. destruct (Hm _ _ _ Hst Hin) as (c & Hc & Ht).
    exists c. rewrite lookup_insert_ne; [done|congruence].
  - intros w' c. rewrite lookup_insert. case_decide; [naive_solver|eauto].
Qed.

Section Preservation.
Context `{Platform}.

Lemma inv_identify s rs now w c v :
  inv s → clients s !! w = Some c → inv (on_message rs now w c (identify v) s).1.
Proof.
  intros [Hk Hl Hm Hb] Hc. split; simpl.
  - done.
  - intros w' c' t. rewrite lookup_insert. case_decide; [|eauto].
    subst w'. intros [= <-]. simpl. eauto.
  - intros t st w' Hst Hin. destruct (Hm _ _ _ Hst Hin) as (c' & Hc' & Ht).
    rewrite lookup_insert. case_decide; [|eauto].
    subst w'. rewrite Hc in Hc'. injection Hc' as <-. eauto.
  - intros w' c'. rewrite lookup_insert. case_decide; [|eauto].
    subst w'. intros [= <-]. simpl. eauto.
Qed.

Lemma inv_broadcast_status s rs now w c mo so pt sp ml :
  inv s → clients s !! w = Some c →
  inv (on_message rs now w c (broadcast_status mo so pt sp ml) s).1.
Proof.
  intros Hi Hc. simpl.
  destruct (truthy_str (flat_id c)) eqn:Hf; simpl; [|done].
  destruct (stations s !! default "" (flat_id c)) as [st|] eqn:Hst; simpl; [|done].
  destruct Hi as [Hk Hl Hm Hb]. split; simpl.
  - rewrite lookup_insert_ne; [done|]. intros He. rewrite <- He in Hk. congruence.
  - intros w' c' t Hc' Ht. destruct (Hl _ _ _ Hc' Ht) as (st' & Hst' & Hin).
    rewrite lookup_insert. case_decide; [|eauto].
    subst t. rewrite Hst in Hst'. injection Hst' as <-. eauto.
  - intros t st' w'. rewrite lookup_insert. case_decide; [|eauto].
    subst t. intros [= <-]. simpl. eauto.
  - done.
Qed.

Lemma inv_listen_stop s rs now w c :
  inv s → clients s !! w = Some c → inv (on_message rs now w c listen_stop s).1.
Proof.
  intros Hi Hc. pose proof (inv_listening_truthy s w c Hi Hc) as Hlt.
  destruct Hi as [Hk Hl Hm Hb]. simpl.
  assert (Hsts : ∀ t st' w', w' ≠ w →
    (if truthy_str (listeningTo c)
     then listeners_delete w (default "" (listeningTo c)) (stations s)
     else stations s) !! t = Some st' → w' ∈ listeners st' →
    ∃ st, stations s !! t = Some st ∧ w' ∈ listeners st).
  { intros t st' w' Hne. destruct (truthy_str (listeningTo c)); [|eauto].
    rewrite lookup_listeners_delete. intros (st & Hst & ->)%fmap_Some Hin.
    exists st. split; [done|]. case_decide; simpl in Hin; set_solver. }
  split; simpl.
  - destruct (truthy_str (listeningTo c)); [|done].
    rewrite lookup_listeners_delete, Hk. done.
  - intros w' c' t. rewrite lookup_insert. case_decide as Hw; [naive_solver|].
    intros Hc' Ht. destruct (Hl _ _ _ Hc' Ht) as (st & Hst & Hin).
    destruct (truthy_str (listeningTo c)); [|eauto].
    rewrite lookup_listeners_delete, Hst. simpl. eexists; split; [done|].
    case_decide; simpl; set_solver.
  - intros t st' w' Hst' Hin. destruct (decide (w' = w)) as [->|Hne].
    + exfalso. destruct (truthy_str (listeningTo c)) eqn:Htr.
      * rewrite lookup_listeners_delete in Hst'.
        apply fmap_Some in Hst' as (st & Hst & ->).
        case_decide as Ht; simpl in Hin; [set_solver|].
        destruct (Hm _ _ _ Hst Hin) as (c' & Hc' & Hlc').
        rewrite Hc in Hc'. injection Hc' as <-. rewrite Hlc' in Ht. done.
      * destruct (Hm _ _ _ Hst' Hin) as (c' & Hc' & Hlc').
        rewrite Hc in Hc'. injection Hc' as <-. rewrite Hlt in Hlc'; done.
    + destruct (Hsts _ _ _ Hne Hst' Hin) as (st & Hst & Hin').
      rewrite lookup_insert_ne by done. eauto.
  - intros w' c'. rewrite lookup_insert. case_decide; [naive_solver|eauto].
Qed.

Lemma inv_listen_start s rs now w c v :
  inv s → clients s !! w = Some c → inv (on_message rs now w c (listen_start v) s).1.
Proof.
  intros Hi Hc. pose proof (inv_listening_truthy s w c Hi Hc) as Hlt.
  simpl. set (target := normalizeFlatId v).
  destruct (stations s !! target) as [st0|] eqn:Hst0; [|done].
  assert (∃ sts, sts =
    (if truthy_str (listeningTo c)
        && negb (String.eqb (default "" (listeningTo c)) target)
     then listeners_delete w (default "" (listeningTo c)) (stations s)
     else stations s)) as [sts Hsts] by eauto.
  assert (Hgoal : role c ≠ broadcaster →
    inv (mkLive (<[w := set_listeningTo (Some target) (set_role listener c)]> (clients s))
                (listeners_add w target sts))).
  2:{ subst sts. destruct (role c) eqn:Hr; simpl; [apply Hgoal; congruence|done|
      apply Hgoal; congruence]. }
  intros _. destruct Hi as [Hk Hl Hm Hb].
  (* the stations after the optional leave *)
  assert (Hdom : ∀ t st, stations s !! t = Some st →
    ∃ st', sts !! t = Some st' ∧ ∀ w', w' ≠ w → w' ∈ listeners st → w' ∈ listeners st').
  { intros t st Hst. subst sts.
    destruct (_ && _); [|eauto].
    rewrite lookup_listeners_delete, Hst. simpl. eexists; split; [done|].
    intros w' Hne Hin. case_decide; simpl; set_solver. }
  assert (Hback : ∀ t st', sts !! t = Some st' →
    ∃ st, stations s !! t = Some st ∧
      (∀ w', w' ∈ listeners st' → w' ∈ listeners st) ∧
      (w ∈ listeners st' → t = target)).
  { intros t st' Hst'. subst sts.
    destruct (truthy_str (listeningTo c)) eqn:Htr; simpl in Hst'.
    - destruct (String.eqb_spec (default "" (listeningTo c)) target) as [He|Hne];
        simpl in Hst'.
      + exists st'. split_and!; [done|done|]. intros Hin.
        destruct (Hm _ _ _ Hst' Hin) as (c' & Hc' & Hlc').
        rewrite Hc in Hc'. injection Hc' as <-. rewrite Hlc' in He. done.
      + rewrite lookup_listeners_delete in Hst'.
        apply fmap_Some in Hst' as (st & Hst & ->). exists st.
        split_and!; [done| |].
        * intros w'. case_decide; simpl; set_solver.
        * case_decide as Ht; simpl; [set_solver|]. intros Hin.
          destruct (Hm _ _ _ Hst Hin) as (c' & Hc' & Hlc').
          rewrite Hc in Hc'. injection Hc' as <-. rewrite Hlc' in Ht. done.
    - exists st'. split_and!; [done|done|]. intros Hin.
      destruct (Hm _ _ _ Hst' Hin) as (c' & Hc' & Hlc').
      rewrite Hc in Hc'. injection Hc' as <-. rewrite Hlt in Hlc'; done. }
  split; simpl.
  - rewrite lookup_listeners_add.
    destruct (sts !! "") as [st'|] eqn:Hst'; [|done].
    destruct (Hback _ _ Hst') as (st & Hst & _). congruence.
  - intros w' c' t. rewrite lookup_insert. case_decide as Hw.
    + subst w'. intros [= <-]. simpl. intros [= <-].
      destruct (Hdom _ _ Hst0) as (st' & Hst' & _).
      rewrite lookup_listeners_add, Hst'. simpl. eexists; split; [done|].
      rewrite decide_True by done. simpl. set_solver.
    + intros Hc' Ht. destruct (Hl _ _ _ Hc' Ht) as (st & Hst & Hin).
      destruct (Hdom _ _ Hst) as (st' & Hst' & Hin').
      rewrite lookup_listeners_add, Hst'. simpl. eexists; split; [done|].
      case_decide; simpl; set_solver.
  - intros t st'' w'. rewrite lookup_listeners_add.
    intros (st' & Hst' & ->)%fmap_Some Hin.
    destruct (Hback _ _ Hst') as (st & Hst & Hsub & Hw).
    rewrite lookup_insert. destruct (decide (w = w')) as [<-|Hw'].
    + eexists; split; [done|]. simpl. f_equal.
      case_decide as Ht; [done|]. simpl in Hin. symmetry. auto.
    + assert (w' ∈ listeners st) as Hin'.
      { apply Hsub. case_decide; simpl in Hin; set_solver. }
      eauto.
  - intros w' c'. rewrite lookup_insert. case_decide; [naive_solver|eauto].
Qed.

(** Leaving the current station, as [broadcast:start], [listen:stop] and
    the close handler do it, removes the socket from every listener set
    and changes nothing else. *)
Lemma leave_lookup s w c t :
  inv s → clients s !! w = Some c →
  (if truthy_str (listeningTo c)
   then listeners_delete w (default "" (listeningTo c)) (stations s)
   else stations s) !! t
  = (λ st, set_listeners (listeners st ∖ {[w]}) st) <$> stations s !! t.
Proof.
  intros Hi Hc. pose proof (inv_listening_truthy s w c Hi Hc) as Hlt.
  destruct (stations s !! t) as [st|] eqn:Hst.
  - assert (Hnot : listeningTo c ≠ Some t → w ∉ listeners st).
    { intros Hne Hin. destruct (inv_member s Hi _ _ _ Hst Hin) as (c' & Hc' & Hlc').
      congruence. }
    assert (Hid : w ∉ listeners st → set_listeners (listeners st ∖ {[w]}) st = st).
    { intros Hw. destruct st as [a b L d]. unfold set_listeners. simpl in *.
      f_equal. set_solver. }
    destruct (truthy_str (listeningTo c)) eqn:Htr.
    + rewrite lookup_listeners_delete, Hst. simpl. case_decide as Ht; [done|].
      rewrite Hid; [done|]. apply Hnot. intros He. rewrite He in Ht. done.
    + rewrite Hst. simpl. rewrite Hid; [done|]. apply Hnot. rewrite Hlt; done.
  - destruct (truthy_str (listeningTo c)); [|by rewrite Hst].
    by rewrite lookup_listeners_delete, Hst.
Qed.

Lemma inv_broadcast_start s rs now w c :
  inv s → clients s !! w = Some c → inv (on_message rs now w c broadcast_start s).1.
Proof.
  intros Hi Hc. pose proof (inv_listening_truthy s w c Hi Hc) as Hlt.
  pose proof (leave_lookup s w c) as Hleave.
  simpl. destruct (truthy_str (flat_id c)) eqn:Hf; simpl; [|done].
  apply truthy_str_Some in Hf as (f & Hf & Hfne). rewrite Hf. simpl.
  destruct (stations s !! f) as [st0|] eqn:Hst0; [done|].
  assert (∃ sts c1, (sts, c1) =
    (if truthy_str (listeningTo c)
     then (listeners_delete w (default "" (listeningTo c)) (stations s),
           set_listeningTo None c)
     else (stations s, c)) ∧ listeningTo c1 = None ∧
     ∀ t, sts !! t = (λ st, set_listeners (listeners st ∖ {[w]}) st) <$> stations s !! t)
    as (sts & c1 & Heq & Hc1 & Hsts).
  { destruct (truthy_str (listeningTo c)) eqn:Htr.
    - eexists _, _. split_and!; [done|done|]. intros t. by apply Hleave.
    - eexists _, _. split_and!; [done|by apply Hlt|]. intros t. by apply Hleave. }
  rewrite <- Heq. clear Heq Hleave. destruct Hi as [Hk Hl Hm Hb].
  split; simpl.
  - rewrite lookup_insert_ne by done. by rewrite Hsts, Hk.
  - intros w' c' t. rewrite lookup_insert. case_decide as Hw.
    + intros [= <-]. simpl. congruence.
    + intros Hc' Ht. destruct (Hl _ _ _ Hc' Ht) as (st & Hst & Hin).
      rewrite lookup_insert_ne by congruence. rewrite Hsts, Hst. simpl.
      eexists; split; [done|]. simpl. set_solver.
  - intros t st' w'. rewrite lookup_insert. case_decide as Ht.
    + intros [= <-]. simpl. set_solver.
    + rewrite Hsts. intros (st & Hst & ->)%fmap_Some. simpl. intros Hin.
      assert (w' ≠ w ∧ w' ∈ listeners st) as [Hne Hin'] by set_solver.
      destruct (Hm _ _ _ Hst Hin') as (c' & Hc' & Hlc').
      rewrite lookup_insert_ne by done. eauto.
  - intros w' c'. rewrite lookup_insert. case_decide; [|eauto].
    intros [= <-]. simpl. done.
Qed.

(** The clients after the reset loop over the listeners of station [f]. *)
Lemma lookup_stop_station (sts : gmap string station) (cs : gmap ws client) f w' :
  (match sts !! f with
   | Some st => reset_listeners (listeners st) cs
   | None => cs
   end) !! w'
  = (λ c', if decide (w' ∈ listeners_at sts f) then reset_client c' else c')
      <$> cs !! w'.
Proof.
  unfold listeners_at. destruct (sts !! f) as [st|] eqn:Hst; simpl.
  - by rewrite lookup_reset_listeners.
  - destruct (cs !! w'); simpl; [|done]. by rewrite decide_False by set_solver.
Qed.

Lemma inv_broadcast_stop s rs now w c :
  inv s → clients s !! w = Some c → inv (on_message rs now w c broadcast_stop s).1.
Proof.
  intros Hi Hc. simpl. destruct (truthy_str (flat_id c)) eqn:Hf; simpl; [|done].
  set (f := default "" (flat_id c)).
  pose proof (lookup_stop_station (stations s) (clients s) f) as Hcs.
  destruct Hi as [Hk Hl Hm Hb].
  assert (Hmem : ∀ t st w', stations s !! t = Some st → w' ∈ listeners st →
                 t ≠ f → w' ∉ listeners_at (stations s) f).
  { intros t st w' Hst Hin Hne. unfold listeners_at.
    destruct (stations s !! f) as [st'|] eqn:Hst'; simpl; [|set_solver].
    intros Hin'. destruct (Hm _ _ _ Hst Hin) as (c1 & Hc1 & Hl1).
    destruct (Hm _ _ _ Hst' Hin') as (c2 & Hc2 & Hl2). congruence. }
  assert (Hget : ∀ w' c1 c' t,
    (if decide (w' ∈ listeners_at (stations s) f) then reset_client c1 else c1) = c'
    ∨ set_role idle (if decide (w' ∈ listeners_at (stations s) f)
                     then reset_client c1 else c1) = c' →
    clients s !! w' = Some c1 → listeningTo c' = Some t →
    ∃ st, delete f (stations s) !! t = Some st ∧ w' ∈ listeners st).
  { intros w' c1 c' t Hc' Hc1 Ht. case_decide as Hd.
    - destruct Hc' as [<-|<-]; simpl in Ht; done.
    - assert (listeningTo c1 = Some t) as Hl1 by (destruct Hc' as [<-|<-]; done).
      destruct (Hl _ _ _ Hc1 Hl1) as (st & Hst & Hin).
      exists st. split; [|done]. rewrite lookup_delete_ne; [done|].
      intros <-. apply Hd. unfold listeners_at. by rewrite Hst. }
  split; simpl.
  - rewrite lookup_delete. case_decide; done.
  - intros w' c' t. rewrite lookup_alter.
    destruct (decide (w = w')) as [<-|Hne].
    + rewrite Hcs, Hc. simpl. intros [= <-]. intros Ht.
      eapply Hget; [right; reflexivity|done|done].
    + rewrite Hcs. intros (c1 & Hc1 & ->)%fmap_Some Ht.
      eapply Hget; [left; reflexivity|done|done].
  - intros t st w'. rewrite lookup_delete. case_decide as Ht; [done|].
    intros Hst Hin. destruct (Hm _ _ _ Hst Hin) as (c1 & Hc1 & Hl1).
    assert (w' ∉ listeners_at (stations s) f) as Hno by eauto.
    rewrite lookup_alter. destruct (decide (w = w')) as [<-|Hne].
    + rewrite Hcs, Hc1. simpl. rewrite decide_False by done. eauto.
    + rewrite Hcs, Hc1. simpl. rewrite decide_False by done. eauto.
  - intros w' c'. rewrite lookup_alter. destruct (decide (w = w')) as [<-|Hne].
    + rewrite Hcs, Hc. simpl. intros [= <-]. done.
    + rewrite Hcs. intros (c1 & Hc1 & ->)%fmap_Some. case_decide; [done|eauto].
Qed.

End Preservation.


(** What the close handler leaves, entry by entry. *)
Lemma on_close_lookup s w c :
  inv s → clients s !! w = Some c →
  (∀ t, stations (on_close w s) !! t =
        if decide (closing_station c = Some t) then None
        else (λ st, set_listeners (listeners st ∖ {[w]}) st) <$> stations s !! t) ∧
  (∀ w', clients (on_close w s) !! w' =
         if decide (w' = w) then None
         else (λ c', if decide (w' ∈ from_option (listeners_at (stations s)) ∅
                                       (closing_station c))
                     then reset_client c' else c') <$> clients s !! w').
Proof.
  intros Hi Hc. pose proof (leave_lookup s w c) as Hleave.
  unfold on_close. rewrite Hc.
  set (sts := if truthy_str (listeningTo c) then _ else _) in *.
  assert (Hat : ∀ f w', w' ≠ w →
            (w' ∈ listeners_at sts f ↔ w' ∈ listeners_at (stations s) f)).
  { intros f w' Hne. unfold listeners_at. rewrite Hleave by done.
    destruct (stations s !! f); simpl; set_solver. }
  unfold closing_station. destruct (role c) eqn:Hr; simpl.
  - split.
    + intros t. by apply Hleave.
    + intros w'. destruct (decide (w' = w)) as [->|Hw]; [by rewrite lookup_delete_eq|].
      rewrite lookup_delete_ne by done.
      destruct (clients s !! w'); simpl; [|done]. by rewrite decide_False by set_solver.
  - destruct (truthy_str (flat_id c)) eqn:Hf; simpl.
    + apply truthy_str_Some in Hf as (f & Hf & Hfne). rewrite Hf. simpl. split.
      * intros t. rewrite lookup_delete. destruct (decide (f = t)) as [->|Hne].
        -- by rewrite decide_True.
        -- rewrite decide_False by congruence. by apply Hleave.
      * intros w'. destruct (decide (w' = w)) as [->|Hw]; [by rewrite lookup_delete_eq|].
        rewrite lookup_delete_ne by done.
        rewrite lookup_stop_station. destruct (clients s !! w'); simpl; [|done].
        f_equal. destruct (decide (w' ∈ listeners_at sts f)) as [Hin|Hin].
        -- rewrite decide_True; [done|]. by apply Hat.
        -- rewrite decide_False; [done|]. intros Hin'. apply Hin. by apply Hat.
    + split.
      * intros t. by apply Hleave.
      * intros w'. destruct (decide (w' = w)) as [->|Hw]; [by rewrite lookup_delete_eq|].
      rewrite lookup_delete_ne by done.
        destruct (clients s !! w'); simpl; [|done].
        by rewrite decide_False by set_solver.
  - split.
    + intros t. by apply Hleave.
    + intros w'. destruct (decide (w' = w)) as [->|Hw]; [by rewrite lookup_delete_eq|].
      rewrite lookup_delete_ne by done.
      destruct (clients s !! w'); simpl; [|done]. by rewrite decide_False by set_solver.
Qed.

Lemma inv_close s w : inv s → inv (on_close w s).
Proof.
  intros Hi. destruct (clients s !! w) as [c|] eqn:Hc.
  2:{ unfold on_close. by rewrite Hc. }
  destruct (on_close_lookup s w c Hi Hc) as [Hsts Hcs].
  destruct Hi as [Hk Hl Hm Hb].
  assert (Hreset : ∀ t st w', stations s !! t = Some st → w' ∈ listeners st →
            closing_station c ≠ Some t →
            w' ∉ from_option (listeners_at (stations s)) ∅ (closing_station c)).
  { intros t st w' Hst Hin Hne. destruct (closing_station c) as [f|]; simpl; [|set_solver].
    unfold listeners_at. destruct (stations s !! f) as [st'|] eqn:Hst'; simpl; [|set_solver].
    intros Hin'. destruct (Hm _ _ _ Hst Hin) as (c1 & Hc1 & Hl1).
    destruct (Hm _ _ _ Hst' Hin') as (c2 & Hc2 & Hl2). congruence. }
  split.
  - rewrite Hsts. case_decide; [done|]. by rewrite Hk.
  - intros w' c' t. rewrite Hcs. case_decide as Hw; [done|].
    intros (c1 & Hc1 & ->)%fmap_Some. case_decide as Hd; [done|]. intros Ht.
    destruct (Hl _ _ _ Hc1 Ht) as (st & Hst & Hin).
    rewrite Hsts, Hst. simpl. rewrite decide_False.
    + eexists; split; [done|]. simpl. set_solver.
    + intros He. apply Hd. rewrite He. simpl. unfold listeners_at. by rewrite Hst.
  - intros t st' w'. rewrite Hsts. case_decide as Hd; [done|].
    intros (st & Hst & ->)%fmap_Some. simpl. intros Hin.
    assert (w' ≠ w ∧ w' ∈ listeners st) as [Hne Hin'] by set_solver.
    destruct (Hm _ _ _ Hst Hin') as (c1 & Hc1 & Hl1).
    rewrite Hcs, decide_False, Hc1 by done. simpl.
    rewrite decide_False by eauto. eauto.
  - intros w' c'. rewrite Hcs. case_decide as Hw; [done|].
    intros (c1 & Hc1 & ->)%fmap_Some. case_decide; [done|eauto].
Qed.

(** Every reachable state satisfies the invariant. *)
Lemma reachable_inv `{Platform} s : reachable s → inv s.
Proof.
  induction 1 as [|s w addr now _ IH Hw|s rs now w c msg _ IH Hc|s w _ IH].
  - apply inv_boot.
  - by apply inv_connection.
  - destruct msg.
    + by apply inv_identify.
    + by apply inv_broadcast_start.
    + by apply inv_broadcast_stop.
    + by apply inv_broadcast_status.
    + by apply inv_listen_start.
    + by apply inv_listen_stop.
    + done.
  - by apply inv_close.
Qed.

Lemma reachable_step `{Platform} s e : reachable s → reachable (step s e).
Proof.
  intros Hs. destruct e as [w addr now|rs now w msg|w]; simpl.
  - destruct (clients s !! w) eqn:Hw; [done|]. by apply reach_connection.
  - destruct (clients s !! w) as [c|] eqn:Hw; [|done]. by apply reach_message.
  - by apply reach_close.
Qed.

Lemma reachable_run `{Platform} evs : reachable (run evs).
Proof.
  unfold run. generalize empty_live, reach_boot.
  induction evs as [|e evs IH]; intros s Hs; simpl; [done|].
  apply IH. by apply reachable_step.
Qed.

(** ** Duplicate broadcast start *)

(** C1: in a reachable state, a [broadcast:start] frame from an open
    connection whose flat id already has a station is answered with
    [broadcast:denied / ALREADY_BROADCASTING] and changes nothing: the
    whole state (registry, the station's fields and listener set, every
    client's role and listening target) is the one before. *)
Theorem C1_broadcast_start_denied `{Platform} s rs now w c f st :
  reachable s → clients s !! w = Some c →
  flat_id c = Some f → stations s !! f = Some st → rs w = 1 →
  on_message rs now w c broadcast_start s = (s, [Send w broadcast_denied]).
Proof.
  intros Hs Hc Hf Hst Hopen. apply reachable_inv in Hs.
  assert (f ≠ "") as Hne.
  { intros ->. rewrite (inv_key s Hs) in Hst. done. }
  simpl. rewrite Hf. simpl.
  rewrite (proj2 (String.eqb_neq f "") Hne). simpl. rewrite Hst.
  unfold safeSend. rewrite Hopen. done.
Qed.

Section Examples.
#[local] Existing Instance example_platform.


Lemma C1_broadcast_start_denied_witness :
  on_message all_open 1005 2 (mkClient (Some "A1") "10.0.0.2" idle None 1003)
    broadcast_start (run duplicate_trace)
  = (run duplicate_trace, [Send 2 broadcast_denied]).
Proof.
  apply (C1_broadcast_start_denied (run duplicate_trace) all_open 1005 2
           (mkClient (Some "A1") "10.0.0.2" idle None 1003) "A1"
           (mkStation "10.0.0.1" 1002 ∅ default_audio)).
  - apply reachable_run.
  - vm_compute. reflexivity.
  - reflexivity.
  - vm_compute. reflexivity.
  - reflexivity.
Defined.

End Examples.

(** ** A listener that sends [broadcast:stop] *)

(** C2: the state reached when a listener of station A1 (socket 2, flat
    B2) sends [broadcast:stop]: the handler sets its role to idle and
    leaves its listening target and its place in A1's listener set, so
    the client is idle with a non-null [listeningTo]. *)
Theorem C2_broadcast_stop_by_listener (P : Platform) :
  let s := run [connection 1 "10.0.0.1" 1000;
                message all_open 1001 1 (identify (JStr "A1"));
                message all_open 1002 1 broadcast_start;
                connection 2 "10.0.0.2" 1003;
                message all_open 1004 2 (identify (JStr "B2"));
                message all_open 1005 2 (listen_start (JStr "A1"));
                message all_open 1006 2 broadcast_stop] in
  reachable s ∧
  clients s !! 2%nat = Some (mkClient (Some "B2") "10.0.0.2" idle (Some "A1") 1003) ∧
  (listeners <$> stations s !! "A1") = Some {[2%nat]}.
Proof.
  intros s. split; [apply reachable_run|]. split.
  - vm_compute. reflexivity.
  - vm_compute. reflexivity.
Qed.

(** ** Close of a broadcaster's connection *)

(** C3: when the connection of a client with role broadcaster and flat
    id [f] closes in a reachable state, no station is left under [f],
    every member of that station's listener set ends idle with no
    listening target, and no client that is still connected has [f] as
    its listening target. *)
Theorem C3_broadcaster_close `{Platform} s w c f :
  reachable s → clients s !! w = Some c →
  role c = broadcaster → flat_id c = Some f →
  stations (on_close w s) !! f = None ∧
  (∀ st w', stations s !! f = Some st → w' ∈ listeners st →
     ∃ c', clients (on_close w s) !! w' = Some c' ∧
           role c' = idle ∧ listeningTo c' = None) ∧
  (∀ w' c', clients (on_close w s) !! w' = Some c' → listeningTo c' ≠ Some f).
Proof.
  intros Hs Hc Hr Hf. apply reachable_inv in Hs.
  destruct (on_close_lookup s w c Hs Hc) as [Hsts Hcs].
  destruct Hs as [Hk Hl Hm Hb].
  assert (Hcl : closing_station c = if decide (f = "") then None else Some f).
  { unfold closing_station. rewrite Hr, Hf. simpl.
    case_decide as He; [by rewrite (proj2 (String.eqb_eq f "") He)|].
    by rewrite (proj2 (String.eqb_neq f "") He). }
  split_and!.
  - rewrite Hsts, Hcl. destruct (decide (f = "")) as [->|He].
    + rewrite decide_False by done. by rewrite Hk.
    + by rewrite decide_True.
  - intros st w' Hst Hin. destruct (Hm _ _ _ Hst Hin) as (c1 & Hc1 & Hl1).
    assert (w' ≠ w) as Hne.
    { intros ->. rewrite Hc in Hc1. injection Hc1 as <-.
      rewrite (Hb _ _ Hc Hr) in Hl1. done. }
    assert (f ≠ "") as He.
    { intros ->. rewrite Hk in Hst. done. }
    rewrite Hcs, decide_False, Hc1, Hcl by done. rewrite decide_False by done.
    simpl. rewrite decide_True.
    + eexists; split_and!; done.
    + unfold listeners_at. by rewrite Hst.
  - intros w' c'. rewrite Hcs. destruct (decide (w' = w)) as [->|Hw]; [done|].
    intros (c1 & Hc1 & ->)%fmap_Some.
    destruct (decide (w' ∈ from_option (listeners_at (stations s)) ∅
                             (closing_station c))) as [Hd|Hd]; [done|].
    intros Hl1. destruct (Hl _ _ _ Hc1 Hl1) as (st & Hst & Hin).
    apply Hd. rewrite Hcl. destruct (decide (f = "")) as [->|He].
    + rewrite Hk in Hst. done.
    + simpl. unfold listeners_at. by rewrite Hst.
Qed.

Section ExamplesClose.
#[local] Existing Instance example_platform.


Lemma C3_broadcaster_close_witness :
  stations (on_close 1 (run station_with_listeners)) !! "A1" = None ∧
  (∀ st w', stations (run station_with_listeners) !! "A1" = Some st →
     w' ∈ listeners st →
     ∃ c', clients (on_close 1 (run station_with_listeners)) !! w' = Some c' ∧
           role c' = idle ∧ listeningTo c' = None) ∧
  (∀ w' c', clients (on_close 1 (run station_with_listeners)) !! w' = Some c' →
     listeningTo c' ≠ Some "A1").
Proof.
  apply (C3_broadcaster_close (run station_with_listeners) 1
           (mkClient (Some "A1") "10.0.0.1" broadcaster None 1000) "A1").
  - apply reachable_run.
  - vm_compute. reflexivity.
  - reflexivity.
  - reflexivity.
Defined.

End ExamplesClose.

(** ** The microphone level of [broadcast:status] *)

(** C7, as the code has it: after a [broadcast:status] frame for an
    existing station the stored [micLevel] is [Number(msg.micLevel || 0)].
    A numeric wire value is stored as it is, whatever its size: it is in
    [0,1] when the wire value is, and nothing is clamped. A wire value
    that is missing or falsy (null, false, zero, NaN, the empty string)
    is stored as 0. *)
Theorem C7_micLevel_stored `{Platform} s rs now w c f st mo so pt sp ml :
  flat_id c = Some f → f ≠ "" → stations s !! f = Some st →
  ∃ st', stations (on_message rs now w c (broadcast_status mo so pt sp ml) s).1 !! f
           = Some st' ∧
    (truthy ml = false → micLevel (audio st') = 0%float) ∧
    (∀ x, ml = JNum x → truthy ml = true → micLevel (audio st') = x) ∧
    (∀ x, ml = JNum x → PrimFloat.leb 0 x = true → PrimFloat.leb x 1 = true →
       PrimFloat.leb 0 (micLevel (audio st')) = true ∧
       PrimFloat.leb (micLevel (audio st')) 1 = true).
Proof.
  intros Hf Hne Hst. simpl. rewrite Hf. simpl.
  rewrite (proj2 (String.eqb_neq _ "") Hne). simpl. rewrite Hst. simpl.
  rewrite lookup_insert_eq. eexists; split; [done|]. simpl. split_and!.
  - intros Ht. unfold js_or. rewrite Ht. done.
  - intros x -> Ht. unfold js_or. rewrite Ht. done.
  - intros x -> H0 H1. unfold js_or. destruct (truthy (JNum x)); simpl; done.
Qed.

Section ExamplesStatus.
#[local] Existing Instance example_platform.


Lemma C7_micLevel_stored_witness :
  ∃ st', stations (on_message all_open 1003 1
                     (mkClient (Some "A1") "10.0.0.1" broadcaster None 1000)
                     (broadcast_status (JBool true) (JBool false) (JBool false)
                        (JBool true) (JNum 0.5)) (run on_air)).1 !! "A1"
           = Some st' ∧
    (truthy (JNum 0.5) = false → micLevel (audio st') = 0%float) ∧
    (∀ x, JNum 0.5 = JNum x → truthy (JNum 0.5) = true → micLevel (audio st') = x) ∧
    (∀ x, JNum 0.5 = JNum x → PrimFloat.leb 0 x = true → PrimFloat.leb x 1 = true →
       PrimFloat.leb 0 (micLevel (audio st')) = true ∧
       PrimFloat.leb (micLevel (audio st')) 1 = true).
Proof.
  apply (C7_micLevel_stored (run on_air) all_open 1003 1
           (mkClient (Some "A1") "10.0.0.1" broadcaster None 1000) "A1"
           (mkStation "10.0.0.1" 1002 ∅ default_audio)).
  - reflexivity.
  - discriminate.
  - vm_compute. reflexivity.
Defined.

(** The literal claim fails: a level of 5 on the wire is stored as 5,
    which is not in [0,1]. *)
Lemma C7_micLevel_counterexample :
  (micLevel ∘ audio) <$>
    stations (on_message all_open 1003 1
                (mkClient (Some "A1") "10.0.0.1" broadcaster None 1000)
                (broadcast_status (JBool true) (JBool false) (JBool false)
                   (JBool true) (JNum 5)) (run on_air)).1 !! "A1"
  = Some 5%float ∧
  PrimFloat.leb 5 1 = false.
Proof. vm_compute. split; reflexivity. Qed.

End ExamplesStatus.

(** ** Further properties of the presence plane *)

(** In every reachable state a socket is in the listener set of the
    station under [t] exactly when its client record listens to [t]. *)
Theorem listener_sets_agree `{Platform} s w t :
  reachable s →
  (∃ st, stations s !! t = Some st ∧ w ∈ listeners st) ↔
  (∃ c, clients s !! w = Some c ∧ listeningTo c = Some t).
Proof.
  intros Hs%reachable_inv. split.
  - intros (st & Hst & Hin). by eapply inv_member.
  - intros (c & Hc & Hl). by eapply inv_listening.
Qed.

(** In every reachable state a socket is in the listener set of at most
    one station. *)
Theorem one_station_per_listener `{Platform} s w t1 t2 st1 st2 :
  reachable s →
  stations s !! t1 = Some st1 → w ∈ listeners st1 →
  stations s !! t2 = Some st2 → w ∈ listeners st2 →
  t1 = t2.
Proof.
  intros Hs%reachable_inv H1 Hin1 H2 Hin2.
  destruct (inv_member s Hs _ _ _ H1 Hin1) as (c1 & Hc1 & Hl1).
  destruct (inv_member s Hs _ _ _ H2 Hin2) as (c2 & Hc2 & Hl2).
  congruence.
Qed.

Lemma listeners_listen_message `{Platform} s rs now w c msg :
  inv s → listeners_listen s → clients s !! w = Some c →
  listeners_listen (on_message rs now w c msg s).1.
Proof.
  intros Hi Hl Hc w' c'. destruct msg; simpl.
  - rewrite lookup_insert. case_decide; [|by eapply Hl].
    intros [= <-]. simpl. by eapply Hl.
  - destruct (truthy_str (flat_id c)); simpl; [|by eapply Hl].
    destruct (stations s !! _); [by eapply Hl|].
    destruct (truthy_str (listeningTo c)); simpl;
      (rewrite lookup_insert; case_decide; [|by eapply Hl]);
      intros [= <-]; simpl; done.
  - destruct (truthy_str (flat_id c)); simpl; [|by eapply Hl].
    rewrite lookup_alter. rewrite !lookup_stop_station.
    destruct (decide (w = w')) as [<-|Hne].
    + rewrite Hc. simpl. intros [= <-]. done.
    + intros (c1 & Hc1 & ->)%fmap_Some. case_decide; [done|by eapply Hl].
  - destruct (truthy_str (flat_id c)); simpl; [|by eapply Hl].
    destruct (stations s !! _); simpl; by eapply Hl.
  - destruct (stations s !! _); [|by eapply Hl].
    destruct (role c); simpl; try by eapply Hl.
    all: rewrite lookup_insert; case_decide; [|by eapply Hl].
    all: intros [= <-]; simpl; eauto.
  - rewrite lookup_insert. case_decide; [|by eapply Hl]. intros [= <-]. done.
  - by eapply Hl.
Qed.

Lemma reachable_listeners_listen `{Platform} s : reachable s → listeners_listen s.
Proof.
  induction 1 as [|s w addr now Hs IH Hw|s rs now w c msg Hs IH Hc|s w Hs IH].
  - intros w c. simpl. by rewrite lookup_empty.
  - intros w' c'. simpl. rewrite lookup_insert. case_decide; [|by eapply IH].
    intros [= <-]. done.
  - apply listeners_listen_message; [by apply reachable_inv|done|done].
  - destruct (clients s !! w) as [c|] eqn:Hc.
    2:{ unfold on_close. by rewrite Hc. }
    destruct (on_close_lookup s w c (reachable_inv s Hs) Hc) as [_ Hcs].
    intros w' c'. rewrite Hcs. case_decide; [done|].
    intros (c1 & Hc1 & ->)%fmap_Some. case_decide; [done|by eapply IH].
Qed.

(** In every reachable state a client with role listener listens to a
    station that exists and has the client's socket in its listener
    set. *)
Theorem listener_has_station `{Platform} s w c :
  reachable s → clients s !! w = Some c → role c = listener →
  ∃ t st, listeningTo c = Some t ∧ stations s !! t = Some st ∧ w ∈ listeners st.
Proof.
  intros Hs Hc Hr.
  destruct (reachable_listeners_listen s Hs w c Hc Hr) as [t Ht].
  destruct (inv_listening s (reachable_inv s Hs) w c t Hc Ht) as (st & Hst & Hin).
  eauto.
Qed.

(** Closing a socket twice is closing it once. *)
Theorem on_close_idempotent s w : on_close w (on_close w s) = on_close w s.
Proof.
  assert (clients (on_close w s) !! w = None) as Hgone.
  { unfold on_close. destruct (clients s !! w) as [c|] eqn:Hc; [|done].
    destruct (role c); simpl; try apply lookup_delete_eq.
    destruct (truthy_str (flat_id c)); simpl; apply lookup_delete_eq. }
  unfold on_close at 1. by rewrite Hgone.
Qed.

(** The presence handler sends nothing but the denial, and that only to
    the sender of the frame. *)
Theorem presence_output `{Platform} rs now w c msg s :
  (on_message rs now w c msg s).2 = [] ∨
  (msg = broadcast_start ∧ (on_message rs now w c msg s).2 = [Send w broadcast_denied]).
Proof.
  destruct msg; simpl; try by left.
  - destruct (truthy_str (flat_id c)); simpl; [|by left].
    destruct (stations s !! _); [|by destruct (truthy_str (listeningTo c)); left].
    simpl. destruct (negb (Z.eqb (rs w) 1)); [by left|by right].
  - destruct (truthy_str (flat_id c)); simpl; by left.
  - destruct (truthy_str (flat_id c)); simpl; [|by left].
    destruct (stations s !! _); by left.
  - destruct (stations s !! _); [|by left]. destruct (role c); by left.
Qed.

(** An accepted [broadcast:start]: nothing is sent; the new station has
    the client's address, the current time, no listener and the default
    audio state; the client is a broadcaster that listens to nothing and
    has left every listener set; no other client and no other station
    changes otherwise. *)
Theorem broadcast_start_accepted `{Platform} s rs now w c f :
  reachable s → clients s !! w = Some c →
  flat_id c = Some f → f ≠ "" → stations s !! f = None →
  (on_message rs now w c broadcast_start s).2 = [] ∧
  stations (on_message rs now w c broadcast_start s).1 !! f
    = Some (mkStation (ip c) now ∅ default_audio) ∧
  clients (on_message rs now w c broadcast_start s).1 !! w
    = Some (mkClient (Some f) (ip c) broadcaster None (connectedAt c)) ∧
  (∀ w', w' ≠ w →
     clients (on_message rs now w c broadcast_start s).1 !! w' = clients s !! w') ∧
  (∀ t, t ≠ f →
     stations (on_message rs now w c broadcast_start s).1 !! t
     = (λ st, set_listeners (listeners st ∖ {[w]}) st) <$> stations s !! t).
Proof.
  intros Hs%reachable_inv Hc Hf Hne Hst.
  pose proof (leave_lookup s w c) as Hleave.
  pose proof (inv_listening_truthy s w c Hs Hc) as Hlt.
  simpl. rewrite Hf. simpl. rewrite (proj2 (String.eqb_neq _ _) Hne). simpl.
  rewrite Hst. destruct (truthy_str (listeningTo c)) eqn:Htr; simpl.
  - split_and!; [done|by rewrite lookup_insert_eq| | |].
    + rewrite lookup_insert_eq. unfold set_role, set_listeningTo. simpl. by rewrite Hf.
    + intros w' Hw. by rewrite lookup_insert_ne.
    + intros t Ht. rewrite lookup_insert_ne by done. by apply Hleave.
  - split_and!; [done|by rewrite lookup_insert_eq| | |].
    + rewrite lookup_insert_eq. unfold set_role. simpl. by rewrite Hf, Hlt.
    + intros w' Hw. by rewrite lookup_insert_ne.
    + intros t Ht. rewrite lookup_insert_ne by done. by apply Hleave.
Qed.

(** [broadcast:start] followed by [broadcast:stop]: an idle client that
    listens to nothing and starts a station is, after stopping it, back
    in the state it started from. *)
Theorem broadcast_start_stop `{Platform} s rs rs' now now' w c f :
  clients s !! w = Some c → role c = idle → listeningTo c = None →
  flat_id c = Some f → f ≠ "" → stations s !! f = None →
  step (step s (message rs now w broadcast_start)) (message rs' now' w broadcast_stop)
  = s.
Proof.
  intros Hc Hr Hl Hf Hne Hst.
  assert (Hstart : step s (message rs now w broadcast_start)
    = mkLive (<[w := set_role broadcaster c]> (clients s))
             (<[f := mkStation (ip c) now ∅ default_audio]> (stations s))).
  { cbn [step]. rewrite Hc. cbn [on_message]. rewrite Hf. simpl.
    rewrite (proj2 (String.eqb_neq _ _) Hne). simpl. by rewrite Hst, Hl. }
  rewrite Hstart. cbn [step clients]. rewrite lookup_insert_eq.
  cbn [on_message]. simpl. rewrite Hf. simpl.
  rewrite (proj2 (String.eqb_neq _ _) Hne). simpl.
  rewrite lookup_insert_eq. simpl. unfold reset_listeners. rewrite set_fold_empty.
  destruct s as [cs sts]. simpl in *. f_equal.
  - rewrite alter_insert_eq. apply insert_id. rewrite Hc. f_equal.
    destruct c. simpl in *. by subst.
  - rewrite delete_insert_eq. by apply delete_id.
Qed.

(** An accepted [listen:start]: afterwards the station under the target
    is the only one that has the socket in its listener set, and the
    client is a listener of the target. *)
Theorem listen_start_switches `{Platform} s rs now w c v st :
  reachable s → clients s !! w = Some c →
  role c ≠ broadcaster → stations s !! normalizeFlatId v = Some st →
  clients (on_message rs now w c (listen_start v) s).1 !! w
    = Some (mkClient (flat_id c) (ip c) listener (Some (normalizeFlatId v))
              (connectedAt c)) ∧
  (∃ st', stations (on_message rs now w c (listen_start v) s).1 !! normalizeFlatId v
            = Some st' ∧ listeners st' = {[w]} ∪ listeners st) ∧
  (∀ t st', stations (on_message rs now w c (listen_start v) s).1 !! t = Some st' →
     w ∈ listeners st' → t = normalizeFlatId v).
Proof.
  intros Hs Hc Hr Hst.
  assert (reachable (on_message rs now w c (listen_start v) s).1) as Hs'
    by (by apply reach_message).
  assert (Hcl : clients (on_message rs now w c (listen_start v) s).1 !! w
    = Some (mkClient (flat_id c) (ip c) listener (Some (normalizeFlatId v))
              (connectedAt c))).
  { simpl. rewrite Hst. destruct (role c); simpl; [|done|];
      by rewrite lookup_insert_eq. }
  split; [done|]. split.
  - simpl. rewrite Hst.
    assert (∀ sts : gmap string station,
      (sts = stations s ∨
       ∃ t, t ≠ normalizeFlatId v ∧ sts = listeners_delete w t (stations s)) →
      ∃ st', listeners_add w (normalizeFlatId v) sts !! normalizeFlatId v = Some st'
             ∧ listeners st' = {[w]} ∪ listeners st) as Hadd.
    { intros sts [->|(t & Ht & ->)]; rewrite lookup_listeners_add.
      - rewrite Hst. simpl. rewrite decide_True by done. eauto.
      - rewrite lookup_listeners_delete, Hst. simpl. rewrite decide_True by done.
        rewrite decide_False by done. eauto. }
    destruct (role c); simpl; [|done|].
    all: apply Hadd.
    all: destruct (truthy_str (listeningTo c)); simpl; [|by left].
    all: destruct (String.eqb_spec (default "" (listeningTo c)) (normalizeFlatId v));
      simpl; [by left|right; eauto].
  - intros t st' Hst' Hin.
    destruct (inv_member _ (reachable_inv _ Hs') _ _ _ Hst' Hin) as (c' & Hc' & Hl').
    rewrite Hcl in Hc'. injection Hc' as <-. simpl in Hl'. congruence.
Qed.

Section ExamplesFurther.
#[local] Existing Instance example_platform.

Lemma listener_sets_agree_witness :
  (∃ st, stations (run station_with_listeners) !! "A1" = Some st ∧ 2%nat ∈ listeners st) ↔
  (∃ c, clients (run station_with_listeners) !! 2%nat = Some c ∧
        listeningTo c = Some "A1").
Proof.
  apply (listener_sets_agree (run station_with_listeners) 2 "A1").
  apply reachable_run.
Defined.

Lemma one_station_per_listener_witness :
  stations (run station_with_listeners) !! "A1"
    = Some (mkStation "10.0.0.1" 1002 {[2%nat; 3%nat]} default_audio) ∧
  "A1" = "A1".
Proof.
  assert (stations (run station_with_listeners) !! "A1"
          = Some (mkStation "10.0.0.1" 1002 {[2%nat; 3%nat]} default_audio)) as Hst
    by (vm_compute; reflexivity).
  split; [exact Hst|].
  apply (one_station_per_listener (run station_with_listeners) 2 "A1" "A1"
           (mkStation "10.0.0.1" 1002 {[2%nat; 3%nat]} default_audio)
           (mkStation "10.0.0.1" 1002 {[2%nat; 3%nat]} default_audio)).
  - apply reachable_run.
  - exact Hst.
  - simpl. set_solver.
  - exact Hst.
  - simpl. set_solver.
Defined.

Lemma listener_has_station_witness :
  ∃ t st, listeningTo (mkClient (Some "B2") "10.0.0.2" listener (Some "A1") 1003)
            = Some t ∧
          stations (run station_with_listeners) !! t = Some st ∧
          2%nat ∈ listeners st.
Proof.
  apply (listener_has_station (run station_with_listeners) 2
           (mkClient (Some "B2") "10.0.0.2" listener (Some "A1") 1003)).
  - apply reachable_run.
  - vm_compute. reflexivity.
  - reflexivity.
Defined.

Lemma broadcast_start_accepted_witness :
  (on_message all_open 1002 1 (mkClient (Some "A1") "10.0.0.1" idle None 1000)
     broadcast_start (run identified)).2 = [] ∧
  stations (on_message all_open 1002 1 (mkClient (Some "A1") "10.0.0.1" idle None 1000)
              broadcast_start (run identified)).1 !! "A1"
    = Some (mkStation "10.0.0.1" 1002 ∅ default_audio) ∧
  clients (on_message all_open 1002 1 (mkClient (Some "A1") "10.0.0.1" idle None 1000)
             broadcast_start (run identified)).1 !! 1%nat
    = Some (mkClient (Some "A1") "10.0.0.1" broadcaster None 1000) ∧
  (∀ w', w' ≠ 1%nat →
     clients (on_message all_open 1002 1
                (mkClient (Some "A1") "10.0.0.1" idle None 1000)
                broadcast_start (run identified)).1 !! w'
     = clients (run identified) !! w') ∧
  (∀ t, t ≠ "A1" →
     stations (on_message all_open 1002 1
                 (mkClient (Some "A1") "10.0.0.1" idle None 1000)
                 broadcast_start (run identified)).1 !! t
     = (λ st, set_listeners (listeners st ∖ {[1%nat]}) st)
         <$> stations (run identified) !! t).
Proof.
  apply (broadcast_start_accepted (run identified) all_open 1002 1
           (mkClient (Some "A1") "10.0.0.1" idle None 1000) "A1").
  - apply reachable_run.
  - vm_compute. reflexivity.
  - reflexivity.
  - discriminate.
  - vm_compute. reflexivity.
Defined.

Lemma broadcast_start_stop_witness :
  step (step (run identified) (message all_open 1002 1 broadcast_start))
       (message all_open 1003 1 broadcast_stop)
  = run identified.
Proof.
  apply (broadcast_start_stop (run identified) all_open all_open 1002 1003 1
           (mkClient (Some "A1") "10.0.0.1" idle None 1000) "A1").
  - vm_compute. reflexivity.
  - reflexivity.
  - reflexivity.
  - reflexivity.
  - discriminate.
  - vm_compute. reflexivity.
Defined.

Lemma listen_start_switches_witness :
  clients (on_message all_open 1004 2 (mkClient None "10.0.0.2" idle None 1003)
             (listen_start (JStr "a1")) (run on_air_with_guest)).1 !! 2%nat
    = Some (mkClient None "10.0.0.2" listener (Some (normalizeFlatId (JStr "a1"))) 1003) ∧
  (∃ st', stations (on_message all_open 1004 2
                      (mkClient None "10.0.0.2" idle None 1003)
                      (listen_start (JStr "a1")) (run on_air_with_guest)).1
            !! normalizeFlatId (JStr "a1") = Some st' ∧
          listeners st' = {[2%nat]} ∪ listeners (mkStation "10.0.0.1" 1002 ∅ default_audio)) ∧
  (∀ t st', stations (on_message all_open 1004 2
                        (mkClient None "10.0.0.2" idle None 1003)
                        (listen_start (JStr "a1")) (run on_air_with_guest)).1 !! t
            = Some st' →
     2%nat ∈ listeners st' → t = normalizeFlatId (JStr "a1")).
Proof.
  apply (listen_start_switches (run on_air_with_guest) all_open 1004 2
           (mkClient None "10.0.0.2" idle None 1003) (JStr "a1")
           (mkStation "10.0.0.1" 1002 ∅ default_audio)).
  - apply reachable_run.
  - vm_compute. reflexivity.
  - discriminate.
  - vm_compute. reflexivity.
Defined.

End ExamplesFurther.

End PresenceFacts.

(** * The signaling channel *)

Module SignalFacts.
Import Signal SignalExamples.

Section OrderedMapFacts.
Context {K V : Type} `{EqDecision K}.

Lemma omap_get_set (k k' : K) (v : V) m :
  omap_get k' (omap_set k v m) = if decide (k' = k) then Some v else omap_get k' m.
Proof.
  induction m as [|[k0 v0] m IH]; simpl.
  - destruct (decide (k' = k)); done.
  - destruct (decide (k = k0)) as [->|Hne]; simpl.
    + destruct (decide (k' = k0)); done.
    + destruct (decide (k' = k0)) as [->|Hne'].
      * by rewrite decide_False by done.
      * apply IH.
Qed.

End OrderedMapFacts.

(** ** A second broadcaster on the signaling channel *)

(** C6: an [identify] frame with role broadcaster. When the index has
    no entry for the canonical flat id, the connection is registered
    under it and nothing is sent. When it has one, the connection (if
    open) receives [broadcast:denied / ALREADY_BROADCASTING], is closed
    with code 1008, and the index is unchanged: it still maps the flat id
    to the connection registered before. *)
Theorem C6_signal_identify_broadcaster `{Platform} rs sts w sc fid r s :
  r = JStr "broadcaster" → rs w = 1 →
  (stationBroadcasterWS s !! normalizeFlatId fid = None →
     stationBroadcasterWS (on_message rs sts w sc (identify fid r) s).1
       = <[normalizeFlatId fid := w]> (stationBroadcasterWS s) ∧
     (on_message rs sts w sc (identify fid r) s).2 = []) ∧
  (∀ w0, stationBroadcasterWS s !! normalizeFlatId fid = Some w0 →
     (on_message rs sts w sc (identify fid r) s).2
       = [Send w broadcast_denied; Close w 1008 "already broadcasting"] ∧
     stationBroadcasterWS (on_message rs sts w sc (identify fid r) s).1
       = stationBroadcasterWS s ∧
     stationBroadcasterWS (on_message rs sts w sc (identify fid r) s).1
       !! normalizeFlatId fid = Some w0).
Proof.
  intros -> Hopen. simpl. split.
  - intros ->. done.
  - intros w0 Hw0. rewrite Hw0. simpl. rewrite Hopen. done.
Qed.

Section Examples.
#[local] Existing Instance example_platform.


Lemma C6_signal_identify_broadcaster_witness :
  (stationBroadcasterWS one_broadcaster !! normalizeFlatId (JStr "A1") = None →
     stationBroadcasterWS
       (on_message all_open ∅ 2
          (mkSc "00000000000000b2" None "10.0.0.2" unknown None)
          (identify (JStr "A1") (JStr "broadcaster")) one_broadcaster).1
       = <[normalizeFlatId (JStr "A1") := 2%nat]> (stationBroadcasterWS one_broadcaster) ∧
     (on_message all_open ∅ 2
        (mkSc "00000000000000b2" None "10.0.0.2" unknown None)
        (identify (JStr "A1") (JStr "broadcaster")) one_broadcaster).2 = []) ∧
  (∀ w0, stationBroadcasterWS one_broadcaster !! normalizeFlatId (JStr "A1") = Some w0 →
     (on_message all_open ∅ 2
        (mkSc "00000000000000b2" None "10.0.0.2" unknown None)
        (identify (JStr "A1") (JStr "broadcaster")) one_broadcaster).2
       = [Send 2 broadcast_denied; Close 2 1008 "already broadcasting"] ∧
     stationBroadcasterWS
       (on_message all_open ∅ 2
          (mkSc "00000000000000b2" None "10.0.0.2" unknown None)
          (identify (JStr "A1") (JStr "broadcaster")) one_broadcaster).1
       = stationBroadcasterWS one_broadcaster ∧
     stationBroadcasterWS
       (on_message all_open ∅ 2
          (mkSc "00000000000000b2" None "10.0.0.2" unknown None)
          (identify (JStr "A1") (JStr "broadcaster")) one_broadcaster).1
       !! normalizeFlatId (JStr "A1") = Some w0).
Proof.
  apply (C6_signal_identify_broadcaster all_open ∅ 2
           (mkSc "00000000000000b2" None "10.0.0.2" unknown None)
           (JStr "A1") (JStr "broadcaster") one_broadcaster).
  - reflexivity.
  - reflexivity.
Defined.

End Examples.

(** ** [listen:join] before validation, and the [listen:leave] after it *)

(** C10, as the code has it: every [listen:join] frame makes the sender
    a listener of the canonical target before anything is checked, also
    when the answer is [listen:error] (STATION_OFFLINE or
    BROADCASTER_SIGNAL_NOT_READY). When that target is not the empty
    string, a later [listen:leave] from a client whose record still names
    the target hands [listener:leave] to the connection registered for
    it, which receives the frame when it is open. When the target is the
    empty string, [listen:leave] does nothing: no frame and no change. *)
Theorem C10_join_then_leave `{Platform} rs sts w sc v s :
  omap_get w (signalClients (on_message rs sts w sc (listen_join v) s).1)
    = Some (mkSc (id sc) (flat_id sc) (ip sc) listener (Some (normalizeFlatId v))) ∧
  (sts !! normalizeFlatId v = None →
     (on_message rs sts w sc (listen_join v) s).2
       = safeSend rs (Some w) (listen_error "STATION_OFFLINE")) ∧
  (is_Some (sts !! normalizeFlatId v) →
     stationBroadcasterWS s !! normalizeFlatId v = None →
     (on_message rs sts w sc (listen_join v) s).2
       = safeSend rs (Some w) (listen_error "BROADCASTER_SIGNAL_NOT_READY")) ∧
  (normalizeFlatId v ≠ "" →
   ∀ rs' sts' sc' s' bws,
     listeningTo sc' = Some (normalizeFlatId v) →
     stationBroadcasterWS s' !! normalizeFlatId v = Some bws →
     (on_message rs' sts' w sc' listen_leave s').2
       = safeSend rs' (Some bws)
           [("type", JStr "listener:leave"); ("listenerId", JStr (id sc'))] ∧
     (rs' bws = 1 →
      (on_message rs' sts' w sc' listen_leave s').2
        = [Send bws [("type", JStr "listener:leave"); ("listenerId", JStr (id sc'))]])) ∧
  (normalizeFlatId v = "" →
   ∀ rs' sts' sc' s',
     listeningTo sc' = Some (normalizeFlatId v) →
     on_message rs' sts' w sc' listen_leave s' = (s', [])).
Proof.
  split_and!.
  - simpl. destruct (sts !! normalizeFlatId v);
      [destruct (stationBroadcasterWS s !! normalizeFlatId v)|]; simpl;
      rewrite omap_get_set, decide_True by done; done.
  - intros Hst. simpl. by rewrite Hst.
  - intros [st Hst] Hidx. simpl. by rewrite Hst, Hidx.
  - intros Hne rs' sts' sc' s' bws Hl Hidx.
    assert ((on_message rs' sts' w sc' listen_leave s').2
            = safeSend rs' (Some bws)
                [("type", JStr "listener:leave"); ("listenerId", JStr (id sc'))]) as Heq.
    { simpl. rewrite Hl. simpl.
      rewrite (proj2 (String.eqb_neq _ "") Hne). simpl. by rewrite Hidx. }
    split; [done|]. intros Hopen. rewrite Heq. simpl. by rewrite Hopen.
  - intros He rs' sts' sc' s' Hl. simpl. rewrite Hl, He. done.
Qed.

Section ExamplesJoin.
#[local] Existing Instance example_platform.

Lemma C10_join_then_leave_witness :
  omap_get 2%nat
    (signalClients
       (on_message all_open ∅ 2 (mkSc "00000000000000b2" None "10.0.0.2" unknown None)
          (listen_join (JStr "a1")) one_broadcaster).1)
    = Some (mkSc "00000000000000b2" None "10.0.0.2" listener (Some "A1")) ∧
  (on_message all_open ∅ 2 (mkSc "00000000000000b2" None "10.0.0.2" unknown None)
     (listen_join (JStr "a1")) one_broadcaster).2
    = [Send 2 (listen_error "STATION_OFFLINE")] ∧
  (on_message all_open ∅ 2 (mkSc "00000000000000b2" None "10.0.0.2" listener (Some "A1"))
     listen_leave
     (on_message all_open ∅ 2 (mkSc "00000000000000b2" None "10.0.0.2" unknown None)
        (listen_join (JStr "a1")) one_broadcaster).1).2
    = [Send 1 [("type", JStr "listener:leave");
               ("listenerId", JStr "00000000000000b2")]].
Proof.
  pose proof (C10_join_then_leave all_open ∅ 2
                (mkSc "00000000000000b2" None "10.0.0.2" unknown None)
                (JStr "a1") one_broadcaster) as Hthm.
  destruct Hthm as (Hrec & Hoff & _ & Hleave & _).
  split_and!.
  - exact Hrec.
  - apply Hoff. reflexivity.
  - apply (Hleave ltac:(vm_compute; discriminate) all_open ∅
             (mkSc "00000000000000b2" None "10.0.0.2" listener (Some "A1"))
             (on_message all_open ∅ 2
                (mkSc "00000000000000b2" None "10.0.0.2" unknown None)
                (listen_join (JStr "a1")) one_broadcaster).1 1%nat);
      reflexivity.
Defined.

(** The literal claim fails for a target whose canonical form is empty:
    socket 1 has registered as broadcaster without a flat id, socket 2
    joins without a target and gets [STATION_OFFLINE] while its record
    takes the empty target, and its [listen:leave] then sends nothing,
    although an open connection is registered for that target. *)
Lemma C10_empty_target_counterexample :
  let s1 :=
    (on_message all_open ∅ 1 (mkSc "00000000000000a1" None "10.0.0.1" unknown None)
       (identify JUndefined (JStr "broadcaster"))
       (on_connection all_open 2 "00000000000000b2" "10.0.0.2"
          (on_connection all_open 1 "00000000000000a1" "10.0.0.1" empty_state).1).1).1 in
  let r :=
    on_message all_open ∅ 2 (mkSc "00000000000000b2" None "10.0.0.2" unknown None)
      (listen_join JUndefined) s1 in
  r.2 = [Send 2 (listen_error "STATION_OFFLINE")] ∧
  omap_get 2%nat (signalClients r.1)
    = Some (mkSc "00000000000000b2" None "10.0.0.2" listener (Some "")) ∧
  stationBroadcasterWS r.1 !! "" = Some 1%nat ∧
  all_open 1%nat = 1 ∧
  (on_message all_open ∅ 2 (mkSc "00000000000000b2" None "10.0.0.2" listener (Some ""))
     listen_leave r.1).2 = [].
Proof. vm_compute. repeat split; reflexivity. Qed.

End ExamplesJoin.

(** ** Further properties of the signaling channel *)

(** The message handler keeps every entry of the broadcaster index. *)
Lemma index_entry_kept `{Platform} rs sts w sc msg s f w0 :
  stationBroadcasterWS s !! f = Some w0 →
  stationBroadcasterWS (on_message rs sts w sc msg s).1 !! f = Some w0.
Proof.
  intros Hf. destruct msg as [fid r|v| |lid sdp|bf sdp|lid bf cand|]; simpl; try done.
  - destruct (is_string r "broadcaster"); simpl; [|done].
    destruct (stationBroadcasterWS s !! normalizeFlatId fid) eqn:Hn; simpl; [done|].
    rewrite lookup_insert_ne; [done|]. intros <-. congruence.
  - destruct (sts !! normalizeFlatId v); simpl; [|done].
    destruct (stationBroadcasterWS s !! normalizeFlatId v); simpl; done.
  - destruct (truthy_str (listeningTo sc)); simpl; [|done].
    destruct (stationBroadcasterWS s !! default "" (listeningTo sc)); simpl; done.
  - destruct (find_by_id lid (signalClients s)); simpl; done.
  - destruct (stationBroadcasterWS s !! normalizeFlatId bf); simpl; done.
  - destruct (role sc); simpl; [done| |].
    + destruct (truthy lid); simpl; [|done].
      destruct (find_by_id lid (signalClients s)); simpl; done.
    + destruct (truthy bf); simpl; [|done].
      destruct (stationBroadcasterWS s !! normalizeFlatId bf); simpl; done.
Qed.

(** No frame replaces or removes a registered broadcaster connection. *)
Theorem registration_kept `{Platform} rs sts w sc msg s f w0 :
  stationBroadcasterWS s !! f = Some w0 →
  stationBroadcasterWS (on_message rs sts w sc msg s).1 !! f = Some w0.
Proof. apply index_entry_kept. Qed.

(** The broadcaster index after the close handler. *)
Lemma on_close_index s w c :
  omap_get w (signalClients s) = Some c →
  (∀ f, role c = broadcaster → flat_id c = Some f → f ≠ "" →
        stationBroadcasterWS s !! f = Some w →
        stationBroadcasterWS (on_close w s) !! f = None) ∧
  (∀ f w', stationBroadcasterWS s !! f = Some w' → w' ≠ w →
           stationBroadcasterWS (on_close w s) !! f = Some w') ∧
  (∀ f, stationBroadcasterWS s !! f = None →
        stationBroadcasterWS (on_close w s) !! f = None).
Proof.
  intros Hc. unfold on_close. rewrite Hc. split_and!.
  - intros f -> Hf Hne Hidx. rewrite Hf. simpl.
    rewrite (proj2 (String.eqb_neq _ _) Hne). simpl.
    rewrite decide_True by done. apply lookup_delete_eq.
  - intros f w' Hidx Hne. destruct (role c); simpl; try done.
    destruct (truthy_str (flat_id c)); simpl; [|done].
    case_decide as Hd; [|done].
    rewrite lookup_delete_ne; [done|]. intros He. rewrite He in Hd. congruence.
  - intros f Hidx. destruct (role c); simpl; try done.
    destruct (truthy_str (flat_id c)); simpl; [|done].
    case_decide as Hd; [|done].
    destruct (decide (default "" (flat_id c) = f)) as [<-|Hne].
    + apply lookup_delete_eq.
    + by rewrite lookup_delete_ne.
Qed.

(** The close handler takes no other entry out of the index. *)
Lemma on_close_index_only s w c f :
  omap_get w (signalClients s) = Some c →
  ¬ (role c = broadcaster ∧ flat_id c = Some f ∧ f ≠ "" ∧
     stationBroadcasterWS s !! f = Some w) →
  stationBroadcasterWS (on_close w s) !! f = stationBroadcasterWS s !! f.
Proof.
  intros Hc Hnot. unfold on_close. rewrite Hc.
  destruct (role c) eqn:Hr; simpl; try done.
  destruct (truthy_str (flat_id c)) eqn:Hf; simpl; [|done].
  apply PresenceFacts.truthy_str_Some in Hf as (g & Hg & Hne). rewrite Hg. simpl.
  case_decide as Hd; [|done].
  destruct (decide (g = f)) as [->|Hgf]; [by destruct Hnot|].
  by rewrite lookup_delete_ne.
Qed.

(** The close handler removes a registration only when it is the
    closing socket's own: the entry under [f] goes when the closing client
    is a broadcaster with the non-empty flat id [f] and the entry points
    to the closing socket, and in every other case the entry under [f] is
    what it was; in particular entries of other sockets and absent
    entries stay. *)
Theorem close_unregisters_own s w c :
  omap_get w (signalClients s) = Some c →
  (∀ f, role c = broadcaster → flat_id c = Some f → f ≠ "" →
        stationBroadcasterWS s !! f = Some w →
        stationBroadcasterWS (on_close w s) !! f = None) ∧
  (∀ f, ¬ (role c = broadcaster ∧ flat_id c = Some f ∧ f ≠ "" ∧
           stationBroadcasterWS s !! f = Some w) →
        stationBroadcasterWS (on_close w s) !! f = stationBroadcasterWS s !! f) ∧
  (∀ f w', stationBroadcasterWS s !! f = Some w' → w' ≠ w →
           stationBroadcasterWS (on_close w s) !! f = Some w') ∧
  (∀ f, stationBroadcasterWS s !! f = None →
        stationBroadcasterWS (on_close w s) !! f = None).
Proof.
  intros Hc. destruct (on_close_index s w c Hc) as (Hown & Hother & Habsent).
  split_and!; [exact Hown| |exact Hother|exact Habsent].
  intros f Hnot. by apply (on_close_index_only s w c f).
Qed.

(** A second broadcaster that was denied and then closes leaves the
    first one registered. *)
Theorem denied_then_closed `{Platform} rs sts w sc fid s w0 :
  stationBroadcasterWS s !! normalizeFlatId fid = Some w0 → w0 ≠ w →
  stationBroadcasterWS
    (on_close w (on_message rs sts w sc (identify fid (JStr "broadcaster")) s).1)
    !! normalizeFlatId fid = Some w0.
Proof.
  intros Hidx Hne.
  pose proof (index_entry_kept rs sts w sc (identify fid (JStr "broadcaster")) s
                _ _ Hidx) as Hkept.
  set (s1 := (on_message rs sts w sc (identify fid (JStr "broadcaster")) s).1) in *.
  destruct (omap_get w (signalClients s1)) as [c|] eqn:Hc.
  - by apply (on_close_index s1 w c Hc).
  - unfold on_close. by rewrite Hc.
Qed.

(** A relayed frame changes no state and produces at most one frame. *)
Theorem relay_keeps_state `{Platform} rs sts w sc msg s :
  is_relay msg = true →
  (on_message rs sts w sc msg s).1 = s ∧
  (length (on_message rs sts w sc msg s).2 ≤ 1)%nat.
Proof.
  assert (∀ o obj, (length (safeSend rs o obj) ≤ 1)%nat) as Hlen.
  { intros [x|] obj; simpl; [|lia]. destruct (negb _); simpl; lia. }
  destruct msg as [fid r|v| |lid sdp|bf sdp|lid bf cand|]; simpl; try done; intros _.
  - destruct (find_by_id lid (signalClients s)); simpl;
      [split; [done|apply (Hlen (Some _))]|split; [done|lia]].
  - destruct (stationBroadcasterWS s !! normalizeFlatId bf); simpl;
      [split; [done|apply (Hlen (Some _))]|split; [done|lia]].
  - destruct (role sc); simpl; [split; [done|lia]| |].
    + destruct (truthy lid); simpl; [|split; [done|lia]].
      destruct (find_by_id lid (signalClients s)); simpl;
        [split; [done|apply (Hlen (Some _))]|split; [done|lia]].
    + destruct (truthy bf); simpl; [|split; [done|lia]].
      destruct (stationBroadcasterWS s !! normalizeFlatId bf); simpl;
        [split; [done|apply (Hlen (Some _))]|split; [done|lia]].
  - split; [done|lia].
Qed.

(** A [listen:join] for a station that is on air and whose broadcaster
    is registered: the broadcaster is told the listener's id and the
    listener gets [listen:ok], when both sockets are open. *)
Theorem join_succeeds `{Platform} rs sts w sc v s st bws :
  sts !! normalizeFlatId v = Some st →
  stationBroadcasterWS s !! normalizeFlatId v = Some bws →
  rs bws = 1 → rs w = 1 →
  (on_message rs sts w sc (listen_join v) s).2
  = [Send bws [("type", JStr "listener:join"); ("listenerId", JStr (id sc))];
     Send w [("type", JStr "listen:ok"); ("targetFlat", JStr (normalizeFlatId v))]].
Proof.
  intros Hst Hidx Hb Hw. simpl. rewrite Hst, Hidx. simpl. by rewrite Hb, Hw.
Qed.

(** A [webrtc:offer] is delivered only to an open connection whose id is
    the frame's [listenerId], and it carries the sender's id and the
    [sdp] as received. *)
Theorem offer_delivery `{Platform} rs sts w sc lid sdp s a :
  a ∈ (on_message rs sts w sc (webrtc_offer lid sdp) s).2 →
  ∃ lw c, a = Send lw [("type", JStr "webrtc:offer"); ("from", JStr (id sc));
                       ("sdp", sdp)] ∧
          (lw, c) ∈ signalClients s ∧ lid = JStr (id c) ∧ rs lw = 1.
Proof.
  simpl. unfold find_by_id.
  destruct (List.find _ (signalClients s)) as [[lw c]|] eqn:Hfind; simpl;
    [|by intros ?%elem_of_nil].
  apply find_some in Hfind as [Hin Hid]. apply list_elem_of_In in Hin.
  destruct (Z.eqb_spec (rs lw) 1) as [Hopen|Hclosed]; simpl;
    [|by intros ?%elem_of_nil].
  intros ->%list_elem_of_singleton. exists lw, c. split_and!; [done|done| |done].
  simpl in Hid. unfold is_string in Hid. destruct lid; try done.
  apply String.eqb_eq in Hid. by subst.
Qed.

Section ExamplesFurther.
#[local] Existing Instance example_platform.

Lemma registration_kept_witness :
  stationBroadcasterWS
    (on_message all_open ∅ 2 (mkSc "00000000000000b2" None "10.0.0.2" unknown None)
       (identify (JStr "A1") (JStr "broadcaster")) one_broadcaster).1 !! "A1"
  = Some 1%nat.
Proof.
  apply (registration_kept all_open ∅ 2
           (mkSc "00000000000000b2" None "10.0.0.2" unknown None)
           (identify (JStr "A1") (JStr "broadcaster")) one_broadcaster "A1" 1%nat).
  vm_compute. reflexivity.
Defined.

Lemma close_unregisters_own_witness :
  (∀ f, role (mkSc "00000000000000a1" (Some "A1") "10.0.0.1" broadcaster None)
          = broadcaster →
        flat_id (mkSc "00000000000000a1" (Some "A1") "10.0.0.1" broadcaster None)
          = Some f → f ≠ "" →
        stationBroadcasterWS one_broadcaster !! f = Some 1%nat →
        stationBroadcasterWS (on_close 1 one_broadcaster) !! f = None) ∧
  (∀ f, ¬ (role (mkSc "00000000000000a1" (Some "A1") "10.0.0.1" broadcaster None)
             = broadcaster ∧
           flat_id (mkSc "00000000000000a1" (Some "A1") "10.0.0.1" broadcaster None)
             = Some f ∧ f ≠ "" ∧
           stationBroadcasterWS one_broadcaster !! f = Some 1%nat) →
        stationBroadcasterWS (on_close 1 one_broadcaster) !! f
        = stationBroadcasterWS one_broadcaster !! f) ∧
  (∀ f w', stationBroadcasterWS one_broadcaster !! f = Some w' → w' ≠ 1%nat →
           stationBroadcasterWS (on_close 1 one_broadcaster) !! f = Some w') ∧
  (∀ f, stationBroadcasterWS one_broadcaster !! f = None →
        stationBroadcasterWS (on_close 1 one_broadcaster) !! f = None).
Proof.
  apply (close_unregisters_own one_broadcaster 1
           (mkSc "00000000000000a1" (Some "A1") "10.0.0.1" broadcaster None)).
  vm_compute. reflexivity.
Defined.

Lemma denied_then_closed_witness :
  stationBroadcasterWS
    (on_close 2
       (on_message all_open ∅ 2 (mkSc "00000000000000b2" None "10.0.0.2" unknown None)
          (identify (JStr " a1") (JStr "broadcaster")) one_broadcaster).1)
    !! normalizeFlatId (JStr " a1") = Some 1%nat.
Proof.
  apply (denied_then_closed all_open ∅ 2
           (mkSc "00000000000000b2" None "10.0.0.2" unknown None)
           (JStr " a1") one_broadcaster 1%nat).
  - vm_compute. reflexivity.
  - discriminate.
Defined.

Lemma relay_keeps_state_witness :
  (on_message all_open ∅ 2 (mkSc "00000000000000b2" None "10.0.0.2" unknown None)
     (webrtc_answer (JStr "a1") (JStr "v=0")) one_broadcaster).1 = one_broadcaster ∧
  (length (on_message all_open ∅ 2
             (mkSc "00000000000000b2" None "10.0.0.2" unknown None)
             (webrtc_answer (JStr "a1") (JStr "v=0")) one_broadcaster).2 ≤ 1)%nat.
Proof.
  apply (relay_keeps_state all_open ∅ 2
           (mkSc "00000000000000b2" None "10.0.0.2" unknown None)
           (webrtc_answer (JStr "a1") (JStr "v=0")) one_broadcaster).
  reflexivity.
Defined.

Lemma join_succeeds_witness :
  (on_message all_open a1_on_air 2
     (mkSc "00000000000000b2" None "10.0.0.2" unknown None)
     (listen_join (JStr "a1")) one_broadcaster).2
  = [Send 1 [("type", JStr "listener:join");
             ("listenerId", JStr "00000000000000b2")];
     Send 2 [("type", JStr "listen:ok");
             ("targetFlat", JStr (normalizeFlatId (JStr "a1")))]].
Proof.
  apply (join_succeeds all_open a1_on_air 2
           (mkSc "00000000000000b2" None "10.0.0.2" unknown None)
           (JStr "a1") one_broadcaster
           (Presence.mkStation "10.0.0.1" 1002 ∅ Presence.default_audio) 1%nat).
  - vm_compute. reflexivity.
  - vm_compute. reflexivity.
  - reflexivity.
  - reflexivity.
Defined.

Lemma offer_delivery_witness :
  ∃ lw c,
    Send 2 [("type", JStr "webrtc:offer"); ("from", JStr "00000000000000a1");
            ("sdp", JStr "v=0")]
    = Send lw [("type", JStr "webrtc:offer");
               ("from", JStr (id (mkSc "00000000000000a1" (Some "A1") "10.0.0.1"
                                    broadcaster None)));
               ("sdp", JStr "v=0")] ∧
    (lw, c) ∈ signalClients one_broadcaster ∧
    JStr "00000000000000b2" = JStr (id c) ∧ all_open lw = 1.
Proof.
  apply (offer_delivery all_open ∅ 1
           (mkSc "00000000000000a1" (Some "A1") "10.0.0.1" broadcaster None)
           (JStr "00000000000000b2") (JStr "v=0") one_broadcaster).
  vm_compute. left.
Defined.

End ExamplesFurther.

End SignalFacts.

(** * Sorting *)

Module SortFacts.

Section Sort.
Context {A : Type} (cmp : A → A → Z).

Lemma sort_insert_perm x l : sort_insert cmp x l ≡ₚ x :: l.
Proof.
  induction l as [|y l IH]; simpl; [done|].
  destruct (Z.leb (cmp x y) 0); [done|].
  rewrite IH. apply Permutation_swap.
Qed.

Lemma js_sort_perm l : js_sort cmp l ≡ₚ l.
Proof.
  induction l as [|x l IH]; simpl; [done|].
  rewrite sort_insert_perm. by rewrite IH.
Qed.

Lemma js_sort_length l : length (js_sort cmp l) = length l.
Proof. by rewrite js_sort_perm. Qed.


Lemma sort_insert_sorted x l :
  consistent cmp →
  StronglySorted (λ a b, cmp a b ≤ 0) l →
  StronglySorted (λ a b, cmp a b ≤ 0) (sort_insert cmp x l).
Proof.
  intros [Hanti Htrans] Hl. induction Hl as [|y l Hl IH Hy]; simpl.
  - repeat constructor.
  - destruct (Z.leb_spec (cmp x y) 0) as [Hle|Hgt].
    + constructor; [by constructor|]. constructor; [done|].
      eapply Forall_impl; [exact Hy|]. intros z Hz. simpl in *. eauto.
    + constructor; [done|]. rewrite sort_insert_perm. constructor; [eauto|done].
Qed.

Lemma js_sort_sorted l :
  consistent cmp → StronglySorted (λ a b, cmp a b ≤ 0) (js_sort cmp l).
Proof.
  intros Hc. induction l as [|x l IH]; simpl; [constructor|].
  by apply sort_insert_sorted.
Qed.

End Sort.

(** Sorting commutes with a map that the comparator does not see. *)
Lemma js_sort_map {A B : Type} (cmpA : A → A → Z) (cmpB : B → B → Z) (g : A → B) l :
  (∀ a b, cmpB (g a) (g b) = cmpA a b) →
  js_sort cmpB (map g l) = map g (js_sort cmpA l).
Proof.
  intros Hg. induction l as [|x l IH]; simpl; [done|]. rewrite IH.
  generalize (js_sort cmpA l). intros l'.
  induction l' as [|y l' IH']; simpl; [done|].
  rewrite Hg. destruct (Z.leb (cmpA x y) 0); simpl; [done|]. by rewrite IH'.
Qed.

End SortFacts.

(** * The public station list *)

Module ViewsFacts.
Import Presence PresenceExamples Views SortFacts.


(** C8: for a registry [m] read in any order [entries], and a collation
    that orders strings, the public list has exactly one element per
    station: its elements are the records
    [{id, name, live, listeners, startedAt}] with id and name the flat id
    of a station of the registry, live true, listeners the size of that
    station's listener set and startedAt its start time; every station
    has its element, no id occurs twice, and the length is the number of
    stations. The list is sorted by id in collation order; and it is the
    same for any registry that agrees on flat ids, listener counts and
    start times, so it carries no address and no detail of any
    listener. *)
Theorem C8_public_stations `{Platform} (m : gmap string station)
    (entries : list (string * station)) :
  consistent localeCompare → entries ≡ₚ map_to_list m →
  length (buildPublicStations entries) = size m ∧
  (∀ p, p ∈ buildPublicStations entries ↔
        ∃ flat st, m !! flat = Some st ∧
          p = mkPublic flat flat true (size (Presence.listeners st))
                (Presence.startedAt st)) ∧
  NoDup (map id (buildPublicStations entries)) ∧
  buildPublicStations entries
    ≡ₚ map (λ e, mkPublic e.1 e.1 true (size (Presence.listeners e.2))
                   (Presence.startedAt e.2)) (map_to_list m) ∧
  StronglySorted (λ a b, localeCompare (id a) (id b) ≤ 0)
    (buildPublicStations entries) ∧
  (∀ entries2 : list (string * station),
     map (λ e, (e.1, size (Presence.listeners e.2), Presence.startedAt e.2)) entries2
     = map (λ e, (e.1, size (Presence.listeners e.2), Presence.startedAt e.2)) entries →
     buildPublicStations entries2 = buildPublicStations entries).
Proof.
  intros [Hanti Htrans] Hperm. unfold buildPublicStations.
  assert (Hout : js_sort (λ a b, localeCompare (id a) (id b)) (map public_of entries)
                 ≡ₚ map public_of (map_to_list m)).
  { rewrite js_sort_perm. by rewrite Hperm. }
  split_and!.
  - rewrite js_sort_length, length_map, Hperm. apply length_map_to_list.
  - intros p. rewrite Hout, list_elem_of_In, in_map_iff. split.
    + intros ([flat st] & <- & Hin). apply list_elem_of_In, elem_of_map_to_list in Hin.
      exists flat, st. done.
    + intros (flat & st & Hst & ->). exists (flat, st). split; [done|].
      by apply list_elem_of_In, elem_of_map_to_list.
  - rewrite Hout, map_map. simpl. apply (NoDup_fst_map_to_list m).
  - exact Hout.
  - apply (js_sort_sorted (λ a b, localeCompare (id a) (id b))). split.
    + intros a b. apply Hanti.
    + intros a b c. apply Htrans.
  - intros entries2 Heq.
    assert (∀ l : list (string * station),
      map public_of l
      = map (λ t : string * nat * Z, mkPublic t.1.1 t.1.1 true t.1.2 t.2)
          (map (λ e, (e.1, size (Presence.listeners e.2), Presence.startedAt e.2)) l))
      as Hfactor.
    { intros l. rewrite map_map. done. }
    rewrite (Hfactor entries2), (Hfactor entries), Heq. done.
Qed.

Section Examples.
#[local] Existing Instance example_platform.

Lemma example_collation_consistent : consistent localeCompare.
Proof.
  assert (Hcase : ∀ a b,
    (localeCompare a b ≤ 0 ↔ a = b ∨ OrderedTypeEx.String_as_OT.lt a b) ∧
    (0 < localeCompare a b ↔ OrderedTypeEx.String_as_OT.lt b a)).
  { intros a b. simpl.
    pose proof (OrderedTypeEx.String_as_OT.cmp_eq a b) as Heq.
    pose proof (OrderedTypeEx.String_as_OT.cmp_lt a b) as Hlt.
    pose proof (OrderedTypeEx.String_as_OT.cmp_lt b a) as Hgt.
    pose proof (OrderedTypeEx.String_as_OT.cmp_antisym a b) as Hanti.
    unfold OrderedTypeEx.String_as_OT.cmp in *.
    destruct (String.compare a b) eqn:Hc; simpl in *.
    - split; [naive_solver lia|]. split; [lia|]. intros Hba%Hgt.
      rewrite Hba in Hanti. done.
    - split; [naive_solver lia|]. split; [lia|]. intros Hba%Hgt.
      rewrite Hba in Hanti. done.
    - assert (String.compare b a = Lt) as Hba
        by (destruct (String.compare b a); simpl in Hanti; congruence).
      split; [|naive_solver lia]. split; [lia|]. intros [->|Hab%Hlt]; [|done].
      pose proof (proj2 (OrderedTypeEx.String_as_OT.cmp_eq b b) eq_refl) as Hbb.
      unfold OrderedTypeEx.String_as_OT.cmp in Hbb. congruence. }
  split.
  - intros a b Hab. apply Hcase. right. by apply Hcase.
  - intros a b c Hab Hbc. apply Hcase. apply Hcase in Hab, Hbc.
    destruct Hab as [->|Hab]; [done|]. destruct Hbc as [<-|Hbc]; [by right|].
    right. by eapply OrderedTypeEx.String_as_OT.lt_trans.
Qed.


Lemma C8_public_stations_witness :
  buildPublicStations (map_to_list two_stations)
    = [mkPublic "A1" "A1" true 0 2000; mkPublic "B2" "B2" true 2 1000] ∧
  length (buildPublicStations (map_to_list two_stations)) = size two_stations ∧
  (∀ p, p ∈ buildPublicStations (map_to_list two_stations) ↔
        ∃ flat st, two_stations !! flat = Some st ∧
          p = mkPublic flat flat true (size (Presence.listeners st))
                (Presence.startedAt st)) ∧
  NoDup (map id (buildPublicStations (map_to_list two_stations))) ∧
  buildPublicStations (map_to_list two_stations)
    ≡ₚ map (λ e, mkPublic e.1 e.1 true (size (Presence.listeners e.2))
                   (Presence.startedAt e.2)) (map_to_list two_stations) ∧
  StronglySorted (λ a b, localeCompare (id a) (id b) ≤ 0)
    (buildPublicStations (map_to_list two_stations)) ∧
  (∀ entries2 : list (string * station),
     map (λ e, (e.1, size (Presence.listeners e.2), Presence.startedAt e.2)) entries2
     = map (λ e, (e.1, size (Presence.listeners e.2), Presence.startedAt e.2))
         (map_to_list two_stations) →
     buildPublicStations entries2 = buildPublicStations (map_to_list two_stations)).
Proof.
  split; [vm_compute; reflexivity|].
  apply (C8_public_stations two_stations (map_to_list two_stations)).
  - apply example_collation_consistent.
  - reflexivity.
Defined.

End Examples.

End ViewsFacts.

(** * The identity store *)

Module UserDbFacts.
Import UserDb UserDbExamples SortFacts.

Lemma order_by_desc_consistent {R : Type} (key : R → Z) :
  consistent (λ a b : R, key b - key a).
Proof. split; intros; lia. Qed.

Lemma order_by_desc_perm {R : Type} (key : R → Z) rows :
  order_by_desc key rows ≡ₚ rows.
Proof. apply js_sort_perm. Qed.

(** The first row of [ORDER BY key DESC] has the greatest key. *)
Lemma order_by_desc_head {R : Type} (key : R → Z) rows r rest :
  order_by_desc key rows = r :: rest →
  r ∈ rows ∧ ∀ r', r' ∈ rows → key r' ≤ key r.
Proof.
  intros Heq.
  pose proof (js_sort_sorted _ rows (order_by_desc_consistent key)) as Hs.
  pose proof (order_by_desc_perm key rows) as Hp.
  unfold order_by_desc in *. rewrite Heq in Hs, Hp.
  split.
  - rewrite <- Hp. left.
  - intros r'. rewrite <- Hp. intros [->|Hin]%elem_of_cons; [lia|].
    apply StronglySorted_inv in Hs as [_ Hall].
    rewrite Forall_forall in Hall. specialize (Hall r' Hin). simpl in Hall. lia.
Qed.

Section Requests.
Context `{Platform}.

Lemma elem_of_pending_requests f d r :
  r ∈ pending_requests f d ↔
  r ∈ flat_requests d ∧ fr_flat_id r = f ∧ fr_status r = "PENDING".
Proof.
  unfold pending_requests. rewrite order_by_desc_perm, list_elem_of_filter. tauto.
Qed.

(** C9: [createAccessRequest]. With an empty canonical flat id or an
    empty trimmed name it answers [MISSING_FIELDS] and inserts nothing.
    Otherwise, when the flat has a PENDING request, it answers with the
    id and status of one (a most recent one) with [reused] true and
    inserts nothing; when it has none, it appends exactly one row, with
    the next id of the sequence, status PENDING, an empty note and both
    timestamps equal to the current time, and answers that id with
    [reused] false. *)
Theorem C9_createAccessRequest now fid name d :
  let f := normalizeFlatId fid in
  let n := trim (js_String (js_or name (JStr ""))) in
  (f = "" ∨ n = "" →
     createAccessRequest now fid name d = (d, AccessError "MISSING_FIELDS")) ∧
  (f ≠ "" → n ≠ "" →
     (∀ p, p ∈ flat_requests d → fr_flat_id p = f → fr_status p = "PENDING" →
        ∃ r, r ∈ flat_requests d ∧ fr_flat_id r = f ∧ fr_status r = "PENDING" ∧
             (∀ r', r' ∈ flat_requests d → fr_flat_id r' = f →
                    fr_status r' = "PENDING" → fr_created_at r' ≤ fr_created_at r) ∧
             createAccessRequest now fid name d = (d, AccessOk (fr_id r) "PENDING" true)) ∧
     ((∀ p, p ∈ flat_requests d → ¬ (fr_flat_id p = f ∧ fr_status p = "PENDING")) →
        createAccessRequest now fid name d
        = (mkDb (flat_requests d
                   ++ [mkRequest (flat_requests_seq d + 1) f n "" "PENDING" now now])
                (flat_requests_seq d + 1) (flats d) (setup_codes d),
           AccessOk (flat_requests_seq d + 1) "PENDING" false))).
Proof.
  intros f n. unfold createAccessRequest. fold f. fold n. split.
  - intros [->| ->]; simpl; [done|]. by rewrite orb_true_r.
  - intros Hf Hn.
    rewrite (proj2 (String.eqb_neq f "") Hf), (proj2 (String.eqb_neq n "") Hn). simpl.
    split.
    + intros p Hp Hpf Hps.
      destruct (pending_requests f d) as [|r rest] eqn:Hpend.
      { assert (p ∈ pending_requests f d) as Hin by (by apply elem_of_pending_requests).
        rewrite Hpend in Hin. by apply elem_of_nil in Hin. }
      assert (r ∈ pending_requests f d) as Hr by (rewrite Hpend; left).
      apply elem_of_pending_requests in Hr as (Hr & Hrf & Hrs).
      exists r. split_and!; [done|done|done| |by rewrite Hrs].
      intros r' Hr' Hrf' Hrs'. unfold pending_requests in Hpend.
      apply order_by_desc_head in Hpend as [_ Hmax]. apply Hmax.
      apply list_elem_of_filter. done.
    + intros Hnone. destruct (pending_requests f d) as [|r rest] eqn:Hpend; [done|].
      assert (r ∈ pending_requests f d) as Hr by (rewrite Hpend; left).
      apply elem_of_pending_requests in Hr as (Hr & Hrf & Hrs).
      exfalso. by apply (Hnone r).
Qed.

End Requests.

Section ExamplesRequests.
#[local] Existing Instance example_platform.


Lemma C9_createAccessRequest_witness :
  createAccessRequest 5000 (JStr "a1") (JStr " Ava ") fresh_db
  = (mkDb [mkRequest 7 "A1" "Ava" "" "PENDING" 5000 5000] 7 ∅ [],
     AccessOk 7 "PENDING" false).
Proof.
  apply (C9_createAccessRequest 5000 (JStr "a1") (JStr " Ava ") fresh_db).
  - discriminate.
  - discriminate.
  - intros p Hp. by apply elem_of_nil in Hp.
Defined.

End ExamplesRequests.

Section Setup.
Context `{Platform}.


Lemma filter_map_mark_used now id f rows :
  filter (λ r, sc_flat_id r = f) (map (mark_used now id) rows)
  = map (mark_used now id) (filter (λ r, sc_flat_id r = f) rows).
Proof.
  induction rows as [|r rows IH]; simpl; [done|].
  rewrite !filter_cons.
  assert (sc_flat_id (mark_used now id r) = sc_flat_id r) as ->.
  { unfold mark_used. by destruct (Z.eqb _ _). }
  destruct (decide (sc_flat_id r = f)); simpl; by rewrite IH.
Qed.

Lemma recent_codes_mark_used now id f d fr sq fl :
  recent_codes f (mkDb fr sq fl (map (mark_used now id) (setup_codes d)))
  = map (mark_used now id) (recent_codes f d).
Proof.
  unfold recent_codes. simpl. rewrite filter_map_mark_used.
  unfold order_by_desc.
  rewrite (js_sort_map (λ a b, sc_created_at b - sc_created_at a)
                       (λ a b, sc_created_at b - sc_created_at a)).
  - by rewrite firstn_map.
  - intros a b. unfold mark_used. by destruct (Z.eqb (sc_id a) id), (Z.eqb (sc_id b) id).
Qed.

(** A marked code is not found again; the others are found as before. *)
Lemma find_valid_mark_used now now2 id rows :
  find_valid now2 (map (mark_used now id) rows)
  = List.find (λ r, negb (truthy_bigint (sc_used_at r)) && Z.ltb now2 (sc_expires_at r)
                    && negb (Z.eqb (sc_id r) id)) rows.
Proof.
  unfold find_valid. induction rows as [|r rows IH]; simpl; [done|].
  unfold mark_used at 1 2 3. destruct (Z.eqb (sc_id r) id) eqn:Hid; simpl.
  - rewrite andb_false_r. apply IH.
  - rewrite andb_true_r. destruct (_ && _); [done|apply IH].
Qed.

Lemma find_valid_Some now rows r :
  find_valid now rows = Some r →
  r ∈ rows ∧ sc_used_at r = None ∧ now < sc_expires_at r.
Proof.
  unfold find_valid. intros [Hin Hp]%find_some.
  apply list_elem_of_In in Hin. split; [done|].
  apply andb_true_iff in Hp as [Hu He]. apply Z.ltb_lt in He.
  destruct (sc_used_at r); simpl in Hu; done.
Qed.

(** C4, as the code has it: after a [setupPinWithCode] call that
    succeeded, the code it consumed is marked used and is never selected
    again. A second call with the same arguments answers [NO_VALID_CODE]
    when no other unused, unexpired code is among the flat's five most
    recent, in particular when the consumed code was the only one; when
    there is another one, that one is checked, and the answer is
    [INVALID_CODE] if the supplied code does not match it. *)
Theorem C4_setup_code_single_use now fid code pin4 pw d d' :
  setupPinWithCode now fid code pin4 pw d = (d', SetupOk) →
  ∃ valid,
    find_valid now (recent_codes (normalizeFlatId fid) d) = Some valid ∧
    (∀ r, r ∈ setup_codes d' → sc_id r = sc_id valid → sc_used_at r = Some now) ∧
    ∀ now2,
      match find_valid now2 (recent_codes (normalizeFlatId fid) d') with
      | None =>
          setupPinWithCode now2 fid code pin4 pw d' = (d', SetupError "NO_VALID_CODE")
      | Some other =>
          sc_id other ≠ sc_id valid ∧
          (bcrypt_compare (trim (js_String code)) (sc_code_hash other) = false →
           setupPinWithCode now2 fid code pin4 pw d' = (d', SetupError "INVALID_CODE"))
      end ∧
      ((∀ r, r ∈ recent_codes (normalizeFlatId fid) d →
             sc_used_at r = None → now2 < sc_expires_at r → sc_id r = sc_id valid) →
       setupPinWithCode now2 fid code pin4 pw d' = (d', SetupError "NO_VALID_CODE")).
Proof.
  unfold setupPinWithCode. set (f := normalizeFlatId fid).
  destruct (String.eqb f "" || negb (truthy code) || negb (truthy pin4)) eqn:Hmiss;
    [done|].
  destruct (negb (four_digits (js_String pin4))) eqn:Hpin; [done|].
  destruct (flats d !! f) as [flat|] eqn:Hflat; [|done].
  destruct (negb (String.eqb (fl_status flat) "ACTIVE")) eqn:Hact; [done|].
  destruct (find_valid now (recent_codes f d)) as [valid|] eqn:Hvalid; [|done].
  destruct (negb (bcrypt_compare (trim (js_String code)) (sc_code_hash valid)))
    eqn:Hcmp; [done|].
  intros [= <-]. exists valid. split; [done|]. split.
  { simpl. intros r Hr Hid.
    apply list_elem_of_In, in_map_iff in Hr as (r0 & <- & _).
    unfold mark_used in *. destruct (Z.eqb (sc_id r0) (sc_id valid)) eqn:He; [done|].
    apply Z.eqb_neq in He. done. }
  intros now2. cbn [flats]. rewrite lookup_alter, decide_True, Hflat by done.
  cbn [fmap option_fmap option_map fl_status]. rewrite Hact.
  rewrite recent_codes_mark_used, find_valid_mark_used.
  set (found := List.find _ (recent_codes f d)).
  assert (Hfound : ∀ other, found = Some other →
            other ∈ recent_codes f d ∧ sc_used_at other = None ∧
            now2 < sc_expires_at other ∧ sc_id other ≠ sc_id valid).
  { intros other [Hin Hp]%find_some. apply list_elem_of_In in Hin.
    apply andb_true_iff in Hp as [Hp Hid]. apply andb_true_iff in Hp as [Hu He].
    apply Z.ltb_lt in He. apply negb_true_iff, Z.eqb_neq in Hid.
    destruct (sc_used_at other); simpl in Hu; done. }
  split.
  - destruct found as [other|] eqn:Hf; [|done].
    destruct (Hfound other eq_refl) as (_ & _ & _ & Hne). split; [done|].
    intros Hno. by rewrite Hno.
  - intros Honly. destruct found as [other|] eqn:Hf; [|done].
    destruct (Hfound other eq_refl) as (Hin & Hu & He & Hne).
    exfalso. apply Hne. by apply Honly.
Qed.

End Setup.

Section ExamplesSetup.
#[local] Existing Instance example_platform.


Lemma C4_setup_code_single_use_witness :
  ∃ valid,
    find_valid 2000 (recent_codes (normalizeFlatId (JStr "a1")) one_code_db)
      = Some valid ∧
    (∀ r, r ∈ setup_codes
                (setupPinWithCode 2000 (JStr "a1") (JStr "1234") (JStr "5678")
                   JUndefined one_code_db).1 →
          sc_id r = sc_id valid → sc_used_at r = Some 2000) ∧
    ∀ now2,
      match find_valid now2
              (recent_codes (normalizeFlatId (JStr "a1"))
                 (setupPinWithCode 2000 (JStr "a1") (JStr "1234") (JStr "5678")
                    JUndefined one_code_db).1) with
      | None =>
          setupPinWithCode now2 (JStr "a1") (JStr "1234") (JStr "5678") JUndefined
            (setupPinWithCode 2000 (JStr "a1") (JStr "1234") (JStr "5678")
               JUndefined one_code_db).1
          = ((setupPinWithCode 2000 (JStr "a1") (JStr "1234") (JStr "5678")
                JUndefined one_code_db).1, SetupError "NO_VALID_CODE")
      | Some other =>
          sc_id other ≠ sc_id valid ∧
          (bcrypt_compare (trim (js_String (JStr "1234"))) (sc_code_hash other) = false →
           setupPinWithCode now2 (JStr "a1") (JStr "1234") (JStr "5678") JUndefined
             (setupPinWithCode 2000 (JStr "a1") (JStr "1234") (JStr "5678")
                JUndefined one_code_db).1
           = ((setupPinWithCode 2000 (JStr "a1") (JStr "1234") (JStr "5678")
                 JUndefined one_code_db).1, SetupError "INVALID_CODE"))
      end ∧
      ((∀ r, r ∈ recent_codes (normalizeFlatId (JStr "a1")) one_code_db →
             sc_used_at r = None → now2 < sc_expires_at r → sc_id r = sc_id valid) →
       setupPinWithCode now2 (JStr "a1") (JStr "1234") (JStr "5678") JUndefined
         (setupPinWithCode 2000 (JStr "a1") (JStr "1234") (JStr "5678")
            JUndefined one_code_db).1
       = ((setupPinWithCode 2000 (JStr "a1") (JStr "1234") (JStr "5678")
             JUndefined one_code_db).1, SetupError "NO_VALID_CODE")).
Proof.
  apply (C4_setup_code_single_use 2000 (JStr "a1") (JStr "1234") (JStr "5678")
           JUndefined one_code_db).
  vm_compute. reflexivity.
Defined.

(** The literal claim fails: with that single code, the second call
    with the same code answers [NO_VALID_CODE], not [INVALID_CODE]. *)
Lemma C4_second_call_counterexample :
  (setupPinWithCode 2000 (JStr "a1") (JStr "1234") (JStr "5678") JUndefined
     one_code_db).2 = SetupOk ∧
  (setupPinWithCode 2001 (JStr "a1") (JStr "1234") (JStr "5678") JUndefined
     (setupPinWithCode 2000 (JStr "a1") (JStr "1234") (JStr "5678") JUndefined
        one_code_db).1).2 = SetupError "NO_VALID_CODE".
Proof. vm_compute. split; reflexivity. Qed.

End ExamplesSetup.

Section Login.
Context `{Platform}.

(** C5, as the code has it: [loginFlat] checks, in this order,
    FLAT_NOT_FOUND, FLAT_DISABLED, BANNED, ADMIN_REVOKE_REQUIRED,
    PIN_NOT_SET, INVALID_PIN, INVALID_CREDENTIALS for a PIN that does not
    match, PASSWORD_REQUIRED, and INVALID_CREDENTIALS for a password that
    does not match. So for a flat that exists, is ACTIVE, not banned,
    needs no admin revoke and has a PIN hash and a password hash, a
    well-formed PIN without a password is answered PASSWORD_REQUIRED
    when the PIN matches and INVALID_CREDENTIALS when it does not; the
    store is unchanged in every one of these cases. *)
Theorem C5_login_check_order now fid pin4 pw d :
  let f := normalizeFlatId fid in
  (flats d !! f = None →
     loginFlat now fid pin4 pw d = (d, LoginError "FLAT_NOT_FOUND")) ∧
  (∀ flat, flats d !! f = Some flat →
     (fl_status flat ≠ "ACTIVE" →
        loginFlat now fid pin4 pw d = (d, LoginError "FLAT_DISABLED")) ∧
     (fl_status flat = "ACTIVE" →
        (∀ ban, fl_ban_until flat = Some ban → now < ban →
           loginFlat now fid pin4 pw d = (d, LoginBanned ban)) ∧
        (is_banned now flat = false →
           (fl_requires_admin_revoke flat = true →
              loginFlat now fid pin4 pw d = (d, LoginError "ADMIN_REVOKE_REQUIRED")) ∧
           (fl_requires_admin_revoke flat = false →
              (truthy_str (fl_pin_hash flat) = false →
                 loginFlat now fid pin4 pw d = (d, LoginError "PIN_NOT_SET")) ∧
              (∀ ph, fl_pin_hash flat = Some ph → ph ≠ "" →
                 (four_digits (js_String pin4) = false →
                    loginFlat now fid pin4 pw d = (d, LoginError "INVALID_PIN")) ∧
                 (four_digits (js_String pin4) = true →
                    (bcrypt_compare (js_String pin4) ph = false →
                       loginFlat now fid pin4 pw d
                       = (d, LoginError "INVALID_CREDENTIALS")) ∧
                    (bcrypt_compare (js_String pin4) ph = true →
                       ∀ pwh, fl_password_hash flat = Some pwh → pwh ≠ "" →
                         (truthy pw = false →
                            loginFlat now fid pin4 pw d
                            = (d, LoginError "PASSWORD_REQUIRED")) ∧
                         (truthy pw = true →
                            bcrypt_compare (js_String pw) pwh = false →
                            loginFlat now fid pin4 pw d
                            = (d, LoginError "INVALID_CREDENTIALS"))) ∧
                    (∀ pwh, fl_password_hash flat = Some pwh → pwh ≠ "" →
                       truthy pw = false →
                       loginFlat now fid pin4 pw d
                       = (d, LoginError
                               (if bcrypt_compare (js_String pin4) ph
                                then "PASSWORD_REQUIRED"
                                else "INVALID_CREDENTIALS"))))))))).
Proof.
  intros f. unfold loginFlat. fold f. split.
  - intros ->. done.
  - intros flat ->. split.
    + intros Hs. by rewrite (proj2 (String.eqb_neq _ _) Hs).
    + intros Hs. rewrite (proj2 (String.eqb_eq _ _) Hs). simpl. split.
      * intros ban Hu Hlt. unfold is_banned. rewrite Hu. simpl.
        by rewrite (proj2 (Z.ltb_lt _ _) Hlt).
      * intros ->. split; [by intros ->|]. intros ->. split; [by intros ->|].
        intros ph Hph Hne. rewrite Hph. simpl.
        rewrite (proj2 (String.eqb_neq _ _) Hne). simpl.
        split; [by intros ->|]. intros ->. simpl. split_and!.
        -- by intros ->.
        -- intros ->. simpl. intros pwh Hpwh Hne'. rewrite Hpwh. simpl.
           rewrite (proj2 (String.eqb_neq _ _) Hne'). simpl.
           split; [by intros ->|]. intros -> Hc. simpl. by rewrite Hc.
        -- intros pwh Hpwh Hne' Hpw. rewrite Hpwh. simpl.
           rewrite (proj2 (String.eqb_neq _ _) Hne'). simpl. rewrite Hpw. simpl.
           by destruct (bcrypt_compare (js_String pin4) ph).
Qed.

End Login.

Section ExamplesLogin.
#[local] Existing Instance example_platform.


Lemma C5_login_check_order_witness :
  loginFlat 4000 (JStr "a1") (JStr "5678") JUndefined pin_and_password_db
  = (pin_and_password_db, LoginError "PASSWORD_REQUIRED").
Proof.
  destruct (C5_login_check_order 4000 (JStr "a1") (JStr "5678") JUndefined
              pin_and_password_db) as [_ Hflat].
  destruct (Hflat (mkFlat "A1" "ACTIVE" (Some "$2b$10$5678") (Some "$2b$10$secret")
                     0 None false 100 300 None)) as [_ Hactive];
    [vm_compute; reflexivity|].
  destruct Hactive as [_ Hnot_banned]; [reflexivity|].
  destruct Hnot_banned as [_ Hno_revoke]; [reflexivity|].
  destruct Hno_revoke as [_ Hpin]; [reflexivity|].
  destruct (Hpin "$2b$10$5678") as [_ Hdigits]; [reflexivity|discriminate|].
  destruct Hdigits as (_ & _ & Hno_password); [reflexivity|].
  apply (Hno_password "$2b$10$secret"); [reflexivity|discriminate|reflexivity].
Defined.

(** The literal claim fails: with a well-formed PIN that does not match
    and no password, the answer is INVALID_CREDENTIALS. *)
Lemma C5_wrong_pin_counterexample :
  (loginFlat 4000 (JStr "A1") (JStr "9999") JUndefined pin_and_password_db).2
  = LoginError "INVALID_CREDENTIALS".
Proof. vm_compute. reflexivity. Qed.

End ExamplesLogin.

(** ** Further properties of the identity store *)

Section Further.
Context `{Platform}.

(** Asking twice: whatever the first [createAccessRequest] answered with
    ok, the same request again (at any later time) answers the same id
    with status PENDING and [reused] true, and inserts nothing. *)
Theorem createAccessRequest_twice now now2 fid name d d1 id st r :
  createAccessRequest now fid name d = (d1, AccessOk id st r) →
  createAccessRequest now2 fid name d1 = (d1, AccessOk id "PENDING" true).
Proof.
  unfold createAccessRequest. set (f := normalizeFlatId fid).
  set (n := trim (js_String (js_or name (JStr "")))).
  destruct (String.eqb f "" || String.eqb n "") eqn:Hmiss; [done|].
  destruct (pending_requests f d) as [|e rest] eqn:Hpend.
  - intros [= <- <- <- <-].
    assert (filter (λ r, fr_flat_id r = f ∧ fr_status r = "PENDING") (flat_requests d)
            = []) as Hnone.
    { apply Permutation_nil_r. rewrite <- Hpend. unfold pending_requests.
      by rewrite order_by_desc_perm. }
    unfold pending_requests. simpl. rewrite filter_app, Hnone. simpl.
    rewrite filter_cons_True by done. simpl. done.
  - intros [= <- <- <- <-]. rewrite Hpend.
    assert (e ∈ pending_requests f d) as He by (rewrite Hpend; left).
    apply elem_of_pending_requests in He as (_ & _ & ->). done.
Qed.

(** A [setupPinWithCode] call that fails changes nothing, and fails with
    one of the six documented errors. *)
Theorem setupPinWithCode_failure now fid code pin4 pw d d' e :
  setupPinWithCode now fid code pin4 pw d = (d', SetupError e) →
  d' = d ∧
  e ∈ ["MISSING_FIELDS"; "PIN_MUST_BE_4_DIGITS"; "FLAT_NOT_FOUND"; "FLAT_DISABLED";
       "NO_VALID_CODE"; "INVALID_CODE"].
Proof.
  unfold setupPinWithCode.
  repeat match goal with
  | |- context [if ?b then _ else _] => destruct b
  | |- context [match ?o with Some _ => _ | None => _ end] => destruct o
  end; intros [= <- <-]; (split; [done|set_solver]).
Qed.

(** What a successful [setupPinWithCode] call has checked and written. *)
Lemma setup_success_facts now fid code pin4 pw d d' :
  setupPinWithCode now fid code pin4 pw d = (d', SetupOk) →
  ∃ valid flat,
    flats d !! normalizeFlatId fid = Some flat ∧ fl_status flat = "ACTIVE" ∧
    four_digits (js_String pin4) = true ∧
    valid ∈ setup_codes d ∧ sc_flat_id valid = normalizeFlatId fid ∧
    sc_used_at valid = None ∧ now < sc_expires_at valid ∧
    bcrypt_compare (trim (js_String code)) (sc_code_hash valid) = true ∧
    flats d' !! normalizeFlatId fid
      = Some (mkFlat (fl_flat_id flat) (fl_status flat)
                (Some (bcrypt_hash (js_String pin4) 10))
                (if truthy pw then Some (bcrypt_hash (js_String pw) 10) else None)
                (fl_strike_count flat) (fl_ban_until flat)
                (fl_requires_admin_revoke flat) (fl_created_at flat) now
                (fl_last_login_at flat)) ∧
    (∀ g, g ≠ normalizeFlatId fid → flats d' !! g = flats d !! g) ∧
    flat_requests d' = flat_requests d.
Proof.
  unfold setupPinWithCode. set (f := normalizeFlatId fid).
  destruct (String.eqb f "" || negb (truthy code) || negb (truthy pin4)); [done|].
  destruct (four_digits (js_String pin4)) eqn:Hpin; simpl; [|done].
  destruct (flats d !! f) as [flat|] eqn:Hflat; [|done].
  destruct (String.eqb_spec (fl_status flat) "ACTIVE") as [Hact|]; simpl; [|done].
  destruct (find_valid now (recent_codes f d)) as [valid|] eqn:Hvalid; [|done].
  destruct (bcrypt_compare (trim (js_String code)) (sc_code_hash valid)) eqn:Hcmp;
    simpl; [|done].
  intros [= <-]. exists valid, flat.
  apply find_valid_Some in Hvalid as (Hin & Hu & He).
  unfold recent_codes in Hin. apply elem_of_take in Hin as (i & Hin & _).
  apply list_elem_of_lookup_2 in Hin. unfold order_by_desc in Hin.
  rewrite js_sort_perm in Hin. apply list_elem_of_filter in Hin as [Hvf Hin].
  split_and!; try done.
  - simpl. by rewrite lookup_alter, decide_True, Hflat.
  - intros g Hg. simpl. rewrite lookup_alter. by rewrite decide_False.
Qed.

(** A [setupPinWithCode] call that succeeds has consumed a code of that
    flat that was unused, unexpired and matched the supplied code, for
    an ACTIVE flat and a four-digit PIN; it writes the PIN hash, the
    password hash (none without a password) and the update time to that
    flat's row and touches no other flat and no request. *)
Theorem setupPinWithCode_success now fid code pin4 pw d d' :
  setupPinWithCode now fid code pin4 pw d = (d', SetupOk) →
  ∃ valid flat,
    flats d !! normalizeFlatId fid = Some flat ∧ fl_status flat = "ACTIVE" ∧
    four_digits (js_String pin4) = true ∧
    valid ∈ setup_codes d ∧ sc_flat_id valid = normalizeFlatId fid ∧
    sc_used_at valid = None ∧ now < sc_expires_at valid ∧
    bcrypt_compare (trim (js_String code)) (sc_code_hash valid) = true ∧
    flats d' !! normalizeFlatId fid
      = Some (mkFlat (fl_flat_id flat) (fl_status flat)
                (Some (bcrypt_hash (js_String pin4) 10))
                (if truthy pw then Some (bcrypt_hash (js_String pw) 10) else None)
                (fl_strike_count flat) (fl_ban_until flat)
                (fl_requires_admin_revoke flat) (fl_created_at flat) now
                (fl_last_login_at flat)) ∧
    (∀ g, g ≠ normalizeFlatId fid → flats d' !! g = flats d !! g) ∧
    flat_requests d' = flat_requests d.
Proof. apply setup_success_facts. Qed.

(** After a successful setup the flat can log in with the PIN (and the
    password, if one was given) it has just set, provided it is neither
    banned nor held for admin revoke; this needs of bcrypt only that a
    hash matches its own input and is not the empty string. *)
Theorem setup_then_login now now2 fid code pin4 pw d d' :
  (∀ data, bcrypt_compare data (bcrypt_hash data 10) = true) →
  (∀ data, bcrypt_hash data 10 ≠ "") →
  setupPinWithCode now fid code pin4 pw d = (d', SetupOk) →
  (∀ flat, flats d !! normalizeFlatId fid = Some flat →
           is_banned now2 flat = false ∧ fl_requires_admin_revoke flat = false) →
  (loginFlat now2 fid pin4 pw d').2 = LoginOk (normalizeFlatId fid).
Proof.
  intros Hmatch Hnonempty Hsetup Hfree.
  apply setup_success_facts in Hsetup
    as (valid & flat & Hflat & Hact & Hpin & _ & _ & _ & _ & _ & Hflat' & _ & _).
  destruct (Hfree flat Hflat) as [Hban Hrev].
  unfold loginFlat. rewrite Hflat'. cbn [fl_status]. rewrite Hact. simpl.
  unfold is_banned in *. cbn [fl_ban_until fl_requires_admin_revoke fl_pin_hash
                               fl_password_hash]. rewrite Hban, Hrev. simpl.
  rewrite (proj2 (String.eqb_neq _ _) (Hnonempty _)). simpl.
  rewrite Hpin, Hmatch. simpl.
  destruct (truthy pw) eqn:Hpw; simpl; [|done].
  rewrite (proj2 (String.eqb_neq _ _) (Hnonempty _)). simpl.
  by rewrite Hmatch.
Qed.

(** A successful login was checked: the flat exists, is ACTIVE, is not
    banned and not held for admin revoke, the PIN has four digits and
    matches the stored hash, and when a password hash is stored a
    password was given and matches it. *)
Theorem login_ok_checked now fid pin4 pw d d' f :
  loginFlat now fid pin4 pw d = (d', LoginOk f) →
  f = normalizeFlatId fid ∧
  ∃ flat ph,
    flats d !! f = Some flat ∧ fl_status flat = "ACTIVE" ∧
    is_banned now flat = false ∧ fl_requires_admin_revoke flat = false ∧
    fl_pin_hash flat = Some ph ∧ four_digits (js_String pin4) = true ∧
    bcrypt_compare (js_String pin4) ph = true ∧
    (∀ pwh, fl_password_hash flat = Some pwh → pwh ≠ "" →
            truthy pw = true ∧ bcrypt_compare (js_String pw) pwh = true).
Proof.
  unfold loginFlat. set (g := normalizeFlatId fid).
  destruct (flats d !! g) as [flat|] eqn:Hflat; [|done].
  destruct (String.eqb_spec (fl_status flat) "ACTIVE") as [Hact|]; simpl; [|done].
  destruct (is_banned now flat) eqn:Hban; [done|].
  destruct (fl_requires_admin_revoke flat) eqn:Hrev; [done|].
  destruct (fl_pin_hash flat) as [ph|] eqn:Hph; simpl; [|done].
  destruct (String.eqb ph ""); simpl; [done|].
  destruct (four_digits (js_String pin4)) eqn:Hpin; simpl; [|done].
  destruct (bcrypt_compare (js_String pin4) ph) eqn:Hcmp; simpl; [|done].
  destruct (fl_password_hash flat) as [pwh|] eqn:Hpwh; simpl.
  - destruct (String.eqb_spec pwh "") as [->|Hne]; simpl.
    + intros [= <- <-]. split; [done|]. exists flat, ph. split_and!; try done.
      intros pwh Heq Hne. rewrite Hpwh in Heq. congruence.
    + destruct (truthy pw) eqn:Hpw; simpl; [|done].
      destruct (bcrypt_compare (js_String pw) pwh) eqn:Hcmp2; simpl; [|done].
      intros [= <- <-]. split; [done|]. exists flat, ph. split_and!; try done.
      intros pwh' Heq _. rewrite Hpwh in Heq. injection Heq as <-. done.
  - intros [= <- <-]. split; [done|]. exists flat, ph. split_and!; try done.
    intros pwh Heq. rewrite Hpwh in Heq. done.
Qed.

(** [loginFlat] writes only on success, and then only the login and
    update times of the flat that logged in. *)
Theorem loginFlat_store now fid pin4 pw d d' r :
  loginFlat now fid pin4 pw d = (d', r) →
  match r with
  | LoginOk f =>
      flat_requests d' = flat_requests d ∧ setup_codes d' = setup_codes d ∧
      flat_requests_seq d' = flat_requests_seq d ∧
      (∀ g, g ≠ f → flats d' !! g = flats d !! g) ∧
      ∃ flat, flats d !! f = Some flat ∧
        flats d' !! f
        = Some (mkFlat (fl_flat_id flat) (fl_status flat) (fl_pin_hash flat)
                  (fl_password_hash flat) (fl_strike_count flat) (fl_ban_until flat)
                  (fl_requires_admin_revoke flat) (fl_created_at flat) now (Some now))
  | _ => d' = d
  end.
Proof.
  unfold loginFlat. set (g := normalizeFlatId fid).
  destruct (flats d !! g) as [flat|] eqn:Hflat; [|by intros [= <- <-]].
  assert (Hok : ∀ d' r,
    (mkDb (flat_requests d) (flat_requests_seq d)
       (alter (λ r, mkFlat (fl_flat_id r) (fl_status r) (fl_pin_hash r)
                      (fl_password_hash r) (fl_strike_count r) (fl_ban_until r)
                      (fl_requires_admin_revoke r) (fl_created_at r) now (Some now))
              g (flats d))
       (setup_codes d), LoginOk g) = (d', r) →
    match r with
    | LoginOk f =>
        flat_requests d' = flat_requests d ∧ setup_codes d' = setup_codes d ∧
        flat_requests_seq d' = flat_requests_seq d ∧
        (∀ g, g ≠ f → flats d' !! g = flats d !! g) ∧
        ∃ flat, flats d !! f = Some flat ∧
          flats d' !! f
          = Some (mkFlat (fl_flat_id flat) (fl_status flat) (fl_pin_hash flat)
                    (fl_password_hash flat) (fl_strike_count flat) (fl_ban_until flat)
                    (fl_requires_admin_revoke flat) (fl_created_at flat) now (Some now))
    | _ => d' = d
    end).
  { intros d0 r0 [= <- <-]. simpl. split_and!; try done.
    - intros g' Hg'. rewrite lookup_alter. by rewrite decide_False.
    - exists flat. split; [done|]. by rewrite lookup_alter, decide_True, Hflat. }
  repeat match goal with
  | |- context [if ?b then _ else _] => destruct b
  end; try (by intros [= <- <-]); apply Hok.
Qed.

(** After a successful setup the status view reports the PIN as set. *)
Theorem status_after_setup now now2 fid code pin4 pw d d' :
  (∀ data, bcrypt_hash data 10 ≠ "") →
  setupPinWithCode now fid code pin4 pw d = (d', SetupOk) →
  ∃ req fv, getSetupStatus now2 fid d' = StatusOk (normalizeFlatId fid) req (Some fv) ∧
            pinSet fv = true ∧ fv_status fv = "ACTIVE".
Proof.
  intros Hnonempty Hsetup.
  assert (normalizeFlatId fid ≠ "") as Hne.
  { unfold setupPinWithCode in Hsetup.
    destruct (String.eqb_spec (normalizeFlatId fid) "") as [He|]; [|done].
    simpl in Hsetup. done. }
  apply setup_success_facts in Hsetup
    as (valid & flat & Hflat & Hact & _ & _ & _ & _ & _ & _ & Hflat' & _ & _).
  unfold getSetupStatus. rewrite (proj2 (String.eqb_neq _ _) Hne), Hflat'.
  eexists _, _. split; [done|]. simpl. split; [|done].
  by rewrite (proj2 (String.eqb_neq _ _) (Hnonempty _)).
Qed.

End Further.

Section ExamplesFurther.
#[local] Existing Instance example_platform.

Lemma example_hash_matches data : bcrypt_compare data (bcrypt_hash data 10) = true.
Proof. simpl. apply String.eqb_refl. Qed.

Lemma example_hash_nonempty data : bcrypt_hash data 10 ≠ "".
Proof. simpl. discriminate. Qed.

Lemma createAccessRequest_twice_witness :
  createAccessRequest 6000 (JStr "a1") (JStr " Ava ")
    (mkDb [mkRequest 7 "A1" "Ava" "" "PENDING" 5000 5000] 7 ∅ [])
  = (mkDb [mkRequest 7 "A1" "Ava" "" "PENDING" 5000 5000] 7 ∅ [],
     AccessOk 7 "PENDING" true).
Proof.
  apply (createAccessRequest_twice 5000 6000 (JStr "a1") (JStr " Ava ") fresh_db
           (mkDb [mkRequest 7 "A1" "Ava" "" "PENDING" 5000 5000] 7 ∅ [])
           7 "PENDING" false).
  vm_compute. reflexivity.
Defined.

Lemma setupPinWithCode_failure_witness :
  one_code_db = one_code_db ∧
  "INVALID_CODE"
    ∈ ["MISSING_FIELDS"; "PIN_MUST_BE_4_DIGITS"; "FLAT_NOT_FOUND"; "FLAT_DISABLED";
       "NO_VALID_CODE"; "INVALID_CODE"].
Proof.
  apply (setupPinWithCode_failure 2000 (JStr "a1") (JStr "0000") (JStr "5678")
           JUndefined one_code_db one_code_db "INVALID_CODE").
  vm_compute. reflexivity.
Defined.

Lemma setupPinWithCode_success_witness :
  ∃ valid flat,
    flats one_code_db !! normalizeFlatId (JStr "a1") = Some flat ∧
    fl_status flat = "ACTIVE" ∧
    four_digits (js_String (JStr "5678")) = true ∧
    valid ∈ setup_codes one_code_db ∧ sc_flat_id valid = normalizeFlatId (JStr "a1") ∧
    sc_used_at valid = None ∧ 2000 < sc_expires_at valid ∧
    bcrypt_compare (trim (js_String (JStr "1234"))) (sc_code_hash valid) = true ∧
    flats after_setup !! normalizeFlatId (JStr "a1")
      = Some (mkFlat (fl_flat_id flat) (fl_status flat)
                (Some (bcrypt_hash (js_String (JStr "5678")) 10))
                (if truthy JUndefined
                 then Some (bcrypt_hash (js_String JUndefined) 10) else None)
                (fl_strike_count flat) (fl_ban_until flat)
                (fl_requires_admin_revoke flat) (fl_created_at flat) 2000
                (fl_last_login_at flat)) ∧
    (∀ g, g ≠ normalizeFlatId (JStr "a1") →
          flats after_setup !! g = flats one_code_db !! g) ∧
    flat_requests after_setup = flat_requests one_code_db.
Proof.
  apply (setupPinWithCode_success 2000 (JStr "a1") (JStr "1234") (JStr "5678")
           JUndefined one_code_db after_setup).
  vm_compute. reflexivity.
Defined.

Lemma setup_then_login_witness :
  (loginFlat 3000 (JStr "a1") (JStr "5678") JUndefined after_setup).2
  = LoginOk (normalizeFlatId (JStr "a1")).
Proof.
  apply (setup_then_login 2000 3000 (JStr "a1") (JStr "1234") (JStr "5678")
           JUndefined one_code_db after_setup).
  - apply example_hash_matches.
  - apply example_hash_nonempty.
  - vm_compute. reflexivity.
  - intros flat Hflat. vm_compute in Hflat. injection Hflat as <-. split; reflexivity.
Defined.

Lemma login_ok_checked_witness :
  "A1" = normalizeFlatId (JStr "a1") ∧
  ∃ flat ph,
    flats after_setup !! "A1" = Some flat ∧ fl_status flat = "ACTIVE" ∧
    is_banned 3000 flat = false ∧ fl_requires_admin_revoke flat = false ∧
    fl_pin_hash flat = Some ph ∧ four_digits (js_String (JStr "5678")) = true ∧
    bcrypt_compare (js_String (JStr "5678")) ph = true ∧
    (∀ pwh, fl_password_hash flat = Some pwh → pwh ≠ "" →
            truthy JUndefined = true ∧
            bcrypt_compare (js_String JUndefined) pwh = true).
Proof.
  apply (login_ok_checked 3000 (JStr "a1") (JStr "5678") JUndefined after_setup
           (loginFlat 3000 (JStr "a1") (JStr "5678") JUndefined after_setup).1 "A1").
  vm_compute. reflexivity.
Defined.

Lemma loginFlat_store_witness :
  match (loginFlat 3000 (JStr "a1") (JStr "5678") JUndefined after_setup).2 with
  | LoginOk f =>
      flat_requests (loginFlat 3000 (JStr "a1") (JStr "5678") JUndefined after_setup).1
        = flat_requests after_setup ∧
      setup_codes (loginFlat 3000 (JStr "a1") (JStr "5678") JUndefined after_setup).1
        = setup_codes after_setup ∧
      flat_requests_seq
        (loginFlat 3000 (JStr "a1") (JStr "5678") JUndefined after_setup).1
        = flat_requests_seq after_setup ∧
      (∀ g, g ≠ f →
         flats (loginFlat 3000 (JStr "a1") (JStr "5678") JUndefined after_setup).1 !! g
         = flats after_setup !! g) ∧
      ∃ flat, flats after_setup !! f = Some flat ∧
        flats (loginFlat 3000 (JStr "a1") (JStr "5678") JUndefined after_setup).1 !! f
        = Some (mkFlat (fl_flat_id flat) (fl_status flat) (fl_pin_hash flat)
                  (fl_password_hash flat) (fl_strike_count flat) (fl_ban_until flat)
                  (fl_requires_admin_revoke flat) (fl_created_at flat) 3000 (Some 3000))
  | _ => (loginFlat 3000 (JStr "a1") (JStr "5678") JUndefined after_setup).1
         = after_setup
  end.
Proof.
  apply (loginFlat_store 3000 (JStr "a1") (JStr "5678") JUndefined after_setup).
  apply surjective_pairing.
Defined.

Lemma status_after_setup_witness :
  ∃ req fv,
    getSetupStatus 3000 (JStr "a1") after_setup
      = StatusOk (normalizeFlatId (JStr "a1")) req (Some fv) ∧
    pinSet fv = true ∧ fv_status fv = "ACTIVE".
Proof.
  apply (status_after_setup 2000 3000 (JStr "a1") (JStr "1234") (JStr "5678")
           JUndefined one_code_db after_setup).
  - apply example_hash_nonempty.
  - vm_compute. reflexivity.
Defined.

End ExamplesFurther.

End UserDbFacts.

(** * Canonical flat ids *)

Module StringFacts.

Lemma upper_ascii_idempotent a : upper_ascii (upper_ascii a) = upper_ascii a.
Proof. destruct a as [[] [] [] [] [] [] [] []]; reflexivity. Qed.

Lemma is_ws_upper_ascii a : is_ws (upper_ascii a) = is_ws a.
Proof. destruct a as [[] [] [] [] [] [] [] []]; reflexivity. Qed.

Lemma toUpperCase_idempotent s : toUpperCase (toUpperCase s) = toUpperCase s.
Proof.
  induction s as [|a s IH]; simpl; [done|]. by rewrite upper_ascii_idempotent, IH.
Qed.

Lemma trimStart_toUpperCase s : trimStart (toUpperCase s) = toUpperCase (trimStart s).
Proof.
  induction s as [|a s IH]; simpl; [done|]. rewrite is_ws_upper_ascii.
  destruct (is_ws a); [done|]. done.
Qed.

Lemma trimEnd_toUpperCase s : trimEnd (toUpperCase s) = toUpperCase (trimEnd s).
Proof.
  induction s as [|a s IH]; simpl; [done|]. rewrite IH, is_ws_upper_ascii.
  destruct (trimEnd s); simpl; [|done]. by destruct (is_ws a).
Qed.

Lemma trimEnd_idempotent s : trimEnd (trimEnd s) = trimEnd s.
Proof.
  induction s as [|a s IH]; simpl; [done|].
  destruct (trimEnd s) as [|b t] eqn:Ht.
  - destruct (is_ws a) eqn:Ha; simpl; [done|]. by rewrite Ha.
  - simpl in *. by rewrite IH.
Qed.

Lemma trimStart_clean s : starts_clean (trimStart s).
Proof. induction s as [|a s IH]; simpl; [done|]. by destruct (is_ws a) eqn:Ha. Qed.

Lemma trimStart_of_clean s : starts_clean s → trimStart s = s.
Proof. destruct s as [|a s]; simpl; [done|]. by intros ->. Qed.

Lemma trimEnd_clean s : starts_clean s → starts_clean (trimEnd s).
Proof.
  destruct s as [|a s]; simpl; [done|]. intros Ha.
  destruct (trimEnd s); simpl; [by rewrite Ha|done].
Qed.

Lemma trim_idempotent s : trim (trim s) = trim s.
Proof.
  unfold trim. rewrite (trimStart_of_clean (trimEnd (trimStart s))).
  - apply trimEnd_idempotent.
  - apply trimEnd_clean, trimStart_clean.
Qed.

Lemma trim_toUpperCase s : trim (toUpperCase s) = toUpperCase (trim s).
Proof. unfold trim. by rewrite trimStart_toUpperCase, trimEnd_toUpperCase. Qed.

(** [normalizeFlatId] yields canonical ids: normalizing a canonical id
    gives it back, whatever the value it came from. *)
Theorem normalizeFlatId_idempotent `{Platform} x :
  normalizeFlatId (JStr (normalizeFlatId x)) = normalizeFlatId x.
Proof.
  unfold normalizeFlatId at 1. set (n := normalizeFlatId x).
  unfold js_or. simpl. destruct (String.eqb_spec n "") as [->|Hne]; simpl; [done|].
  subst n. unfold normalizeFlatId.
  by rewrite trim_toUpperCase, toUpperCase_idempotent, trim_idempotent.
Qed.

End StringFacts.

(** * The heartbeat *)

Module HeartbeatFacts.
Import Heartbeat.

(** While the interval is set, two ticks with no pong between them
    terminate the socket, at the second tick at the latest, and clear
    the interval. *)
Theorem silent_socket_terminated s :
  ticking s = true →
  terminate ∈ ((on_tick s).2 ++ (on_tick (on_tick s).1).2)%list ∧
  ticking (on_tick (on_tick s).1).1 = false.
Proof.
  destruct s as [[] []]; intros Ht; try done; vm_compute; split; try done;
    set_solver.
Qed.

Lemma silent_socket_terminated_witness :
  terminate ∈ ((on_tick on_open).2 ++ (on_tick (on_tick on_open).1).2)%list ∧
  ticking (on_tick (on_tick on_open).1).1 = false.
Proof. apply (silent_socket_terminated on_open). reflexivity. Defined.

Lemma responsive_run evs s out :
  ticking s = true → responsive evs = true →
  (isAlive s = true ∨ match evs with tick :: _ => False | _ => True end) →
  ticking (fold_left step evs (s, out)).1 = true ∧
  (terminate ∈ (fold_left step evs (s, out)).2 → terminate ∈ out).
Proof.
  revert s out. induction evs as [|e evs IH]; intros s out Ht Hr Ha; simpl.
  - done.
  - destruct e; simpl in Hr.
    + apply IH; [done|done|by left].
    + destruct Ha as [Ha|[]]. destruct s as [al tk]. simpl in *. subst.
      destruct evs as [|[] evs']; simpl in *; try done.
      * split; [done|]. set_solver.
      * destruct (IH (mkHb false true) (out ++ [ping])%list) as [Htk Hout];
          [done|done|by right|].
        simpl in *. split; [done|]. intros Hin. specialize (Hout Hin). set_solver.
Qed.

(** A socket that answers every ping before the next tick is never
    terminated, and its interval stays set. *)
Theorem responsive_socket_kept evs :
  responsive evs = true →
  terminate ∉ (run evs).2 ∧ ticking (run evs).1 = true.
Proof.
  intros Hr. destruct (responsive_run evs on_open [] eq_refl Hr (or_introl eq_refl))
    as [Ht Hout].
  split; [|done]. intros Hin. apply Hout in Hin. set_solver.
Qed.

Lemma responsive_socket_kept_witness :
  terminate ∉ (run [tick; pong; tick; pong; pong; tick]).2 ∧
  ticking (run [tick; pong; tick; pong; pong; tick]).1 = true.
Proof. apply (responsive_socket_kept [tick; pong; tick; pong; pong; tick]). reflexivity. Defined.

End HeartbeatFacts.
